(** * UI helpers of [static/js/main.js]: a shallow embedding

    The repository is one browser script (and an older copy of its utility
    part, kept under [src/unnamed/part_000]).  The script calls into the
    JavaScript host: [confirm], [Date], [Date.prototype.toLocaleDateString]
    and the DOM.  The development has three layers:

    - [Js]: the JavaScript values the helpers receive, truthiness, string
      conversion, completions (normal result or thrown error);
    - [DateHost], [Window], [Dom]: executable models of the host primitives,
      following ECMA-262 (Date), ECMA-402 (locale formatting), HTML
      (simple dialogs) and DOM (trees, class lists, event dispatch);
    - [Main] and [Part000]: the functions of the two source files,
      transcribed statement by statement on top of the host models. *)

From Stdlib Require Import ZArith String Ascii List Bool Lia DecimalString.
From stdpp Require Import base option list.
Import ListNotations.

Local Open Scope string_scope.
Local Open Scope Z_scope.

(** ** JavaScript values *)

Module Js.

(** The primitive values a caller can pass to the helpers.  A missing
    argument is [JUndefined], as for every JavaScript parameter.  The
    helpers take strings (a message, a date string, an action name):
    numbers, symbols and objects are left out. *)
Inductive JsValue : Type :=
| JUndefined
| JNull
| JBool (b : bool)
| JStr (s : string).

Inductive JsError : Type :=
| TypeError
| RangeError
| DOMException (name : string).

(** Result of evaluating a statement list: a value, or a thrown error. *)
Inductive Completion (A : Type) : Type :=
| Normal (a : A)
| Throw (e : JsError).

Arguments Normal {A} a.
Arguments Throw {A} e.

Definition bind {A B : Type} (c : Completion A) (k : A -> Completion B)
  : Completion B :=
  match c with
  | Normal a => k a
  | Throw e => Throw e
  end.

(** ECMA-262 7.1.2 ToBoolean. *)
Definition ToBoolean (v : JsValue) : bool :=
  match v with
  | JUndefined => false
  | JNull => false
  | JBool b => b
  | JStr s => negb (s =? "")%string
  end.

(** ECMA-262 7.1.17 ToString. *)
Definition ToString (v : JsValue) : string :=
  match v with
  | JUndefined => "undefined"
  | JNull => "null"
  | JBool true => "true"
  | JBool false => "false"
  | JStr s => s
  end.

(** [a || b]: the left operand when it is truthy, else the right one. *)
Definition logical_or (a b : JsValue) : JsValue :=
  if ToBoolean a then a else b.

(** [!a] *)
Definition logical_not (a : JsValue) : bool := negb (ToBoolean a).

End Js.

Export Js.

Declare Scope js_scope.
Delimit Scope js_scope with js.
Notation "'let*' x ':=' c 'in' k" := (Js.bind c (fun x => k))
  (at level 10, x name, c at level 100, k at level 200) : js_scope.

(** [needle] occurs in [hay]. *)
Definition Substring (needle hay : string) : Prop :=
  exists pre post : string, hay = (pre ++ needle ++ post)%string.

(** ** Host model: Date (ECMA-262 21.4) and fr-FR formatting (ECMA-402) *)

Module DateHost.

(** The options object of [toLocaleDateString], as the script writes it:
    a property is absent or holds a string. *)
Record DateTimeFormatOptions : Type := {
  year : option string;
  month : option string;
  day : option string;
  hour : option string;
  minute : option string
}.

Inductive NumStyle : Type := Numeric | TwoDigit.
Inductive MonthStyle : Type :=
| MNumeric | MTwoDigit | MLong | MShort | MNarrow.

(** The options once read and validated by the formatter's constructor. *)
Record ResolvedOptions : Type := {
  r_year : option NumStyle;
  r_month : option MonthStyle;
  r_day : option NumStyle;
  r_hour : option NumStyle;
  r_minute : option NumStyle
}.

(** What differs between engines and machines: the local time zone, the
    parser used for strings outside the ISO format, the text the locale
    data puts between the date and the time (" à " in current CLDR data,
    ", " or a space in older releases), and the renderings this model does
    not describe (other locales, other field combinations).  Every engine
    rejects the empty string as a date. *)
Record Engine : Type := {
  LocalTZA : Z -> bool -> Z;
  legacyParse : string -> option Z;
  dateTimeGlue : string;
  otherLocale : string -> DateTimeFormatOptions -> Z -> Completion string;
  otherPattern : ResolvedOptions -> Z -> string;
  legacyParse_empty : legacyParse "" = None
}.

(** A time value: milliseconds since the epoch, [None] for NaN. *)
Definition TimeValue : Type := option Z.

Definition msPerSecond : Z := 1000.
Definition msPerMinute : Z := 60000.
Definition msPerHour : Z := 3600000.
Definition msPerDay : Z := 86400000.

Definition Day (t : Z) : Z := t / msPerDay.
Definition TimeWithinDay (t : Z) : Z := t mod msPerDay.

Definition DaysInYear (y : Z) : Z :=
  if negb (y mod 4 =? 0) then 365
  else if negb (y mod 100 =? 0) then 366
  else if negb (y mod 400 =? 0) then 365
  else 366.

Definition DayFromYear (y : Z) : Z :=
  365 * (y - 1970) + (y - 1969) / 4 - (y - 1901) / 100 + (y - 1601) / 400.

Definition TimeFromYear (y : Z) : Z := msPerDay * DayFromYear y.

(** The largest [y] with [TimeFromYear y <= t]: an estimate from the mean
    length of a year, corrected by at most one. *)
Definition YearFromTime (t : Z) : Z :=
  let d := Day t in
  let y0 := 1970 + (d * 400) / 146097 in
  if d <? DayFromYear y0 then y0 - 1
  else if DayFromYear (y0 + 1) <=? d then y0 + 1
  else y0.

Definition InLeapYear (t : Z) : Z :=
  if DaysInYear (YearFromTime t) =? 366 then 1 else 0.

Definition DayWithinYear (t : Z) : Z := Day t - DayFromYear (YearFromTime t).

Definition MonthFromTime (t : Z) : Z :=
  let d := DayWithinYear t in
  let l := InLeapYear t in
  if d <? 31 then 0
  else if d <? 59 + l then 1
  else if d <? 90 + l then 2
  else if d <? 120 + l then 3
  else if d <? 151 + l then 4
  else if d <? 181 + l then 5
  else if d <? 212 + l then 6
  else if d <? 243 + l then 7
  else if d <? 273 + l then 8
  else if d <? 304 + l then 9
  else if d <? 334 + l then 10
  else 11.

(** Day number, within its year, of the first day of month [m] (0-based). *)
Definition monthStart (m leap : Z) : Z :=
  if m =? 0 then 0
  else if m =? 1 then 31
  else if m =? 2 then 59 + leap
  else if m =? 3 then 90 + leap
  else if m =? 4 then 120 + leap
  else if m =? 5 then 151 + leap
  else if m =? 6 then 181 + leap
  else if m =? 7 then 212 + leap
  else if m =? 8 then 243 + leap
  else if m =? 9 then 273 + leap
  else if m =? 10 then 304 + leap
  else 334 + leap.

Definition DateFromTime (t : Z) : Z :=
  DayWithinYear t - monthStart (MonthFromTime t) (InLeapYear t) + 1.

Definition HourFromTime (t : Z) : Z := (t / msPerHour) mod 24.
Definition MinFromTime (t : Z) : Z := (t / msPerMinute) mod 60.

Definition MakeTime (hour min sec ms : Z) : Z :=
  hour * msPerHour + min * msPerMinute + sec * msPerSecond + ms.

Definition MakeDay (year month date : Z) : Z :=
  let ym := year + month / 12 in
  let mn := month mod 12 in
  DayFromYear ym + monthStart mn (if DaysInYear ym =? 366 then 1 else 0)
  + date - 1.

Definition MakeDate (day time : Z) : Z := day * msPerDay + time.

Definition TimeClip (t : Z) : TimeValue :=
  if 8640000000000000 <? Z.abs t then None else Some t.

(** *** The Date Time String Format (ECMA-262 21.4.1.32) *)

Definition digit (c : ascii) : option Z :=
  let n := Z.of_nat (nat_of_ascii c) in
  if (48 <=? n) && (n <=? 57) then Some (n - 48) else None.

(** Reads exactly [n] decimal digits from the front of [s]. *)
Fixpoint digits (n : nat) (acc : Z) (s : string) : option (Z * string) :=
  match n with
  | O => Some (acc, s)
  | S n' =>
      match s with
      | String c s' =>
          match digit c with
          | Some d => digits n' (10 * acc + d) s'
          | None => None
          end
      | EmptyString => None
      end
  end.

Record IsoFields : Type := {
  iso_year : Z;
  iso_month : Z;
  iso_day : Z;
  iso_hour : Z;
  iso_min : Z;
  iso_sec : Z;
  iso_ms : Z;
  iso_has_time : bool;
  iso_offset : option Z   (* minutes east of UTC; [None] when absent *)
}.

(** [YYYY], or an expanded year [+YYYYYY] / [-YYYYYY] ([-000000] is not
    a year). *)
Definition parseYear (s : string) : option (Z * string) :=
  match s with
  | String "+"%char r => digits 6 0 r
  | String "-"%char r =>
      match digits 6 0 r with
      | Some (y, r') => if y =? 0 then None else Some (- y, r')
      | None => None
      end
  | _ => digits 4 0 s
  end.

(** The end of a time: nothing, [Z], [+HH:mm] or [-HH:mm]. *)
Definition parseOffset (s : string) : option (option Z) :=
  match s with
  | EmptyString => Some None
  | String "Z"%char EmptyString => Some (Some 0)
  | String sign r =>
      match digits 2 0 r with
      | Some (h, String ":"%char r1) =>
          match digits 2 0 r1 with
          | Some (m, EmptyString) =>
              if (h <=? 23) && (m <=? 59) then
                if Ascii.eqb sign "+" then Some (Some (h * 60 + m))
                else if Ascii.eqb sign "-" then Some (Some (- (h * 60 + m)))
                else None
              else None
          | _ => None
          end
      | _ => None
      end
  end.

(** [HH:mm], [HH:mm:ss] or [HH:mm:ss.sss], then the offset. *)
Definition parseTime (y mo d : Z) (s : string) : option IsoFields :=
  let mk h mi sec ms off :=
    {| iso_year := y; iso_month := mo; iso_day := d; iso_hour := h;
       iso_min := mi; iso_sec := sec; iso_ms := ms; iso_has_time := true;
       iso_offset := off |} in
  match digits 2 0 s with
  | Some (h, String ":"%char r1) =>
      match digits 2 0 r1 with
      | Some (mi, String ":"%char r2) =>
          match digits 2 0 r2 with
          | Some (sec, String "."%char r3) =>
              match digits 3 0 r3 with
              | Some (ms, r4) => option_map (mk h mi sec ms) (parseOffset r4)
              | None => None
              end
          | Some (sec, r3) => option_map (mk h mi sec 0) (parseOffset r3)
          | None => None
          end
      | Some (mi, r2) => option_map (mk h mi 0 0) (parseOffset r2)
      | None => None
      end
  | _ => None
  end.

Definition dateOnly (y mo d : Z) : IsoFields :=
  {| iso_year := y; iso_month := mo; iso_day := d; iso_hour := 0;
     iso_min := 0; iso_sec := 0; iso_ms := 0; iso_has_time := false;
     iso_offset := None |}.

(** [YYYY], [YYYY-MM] or [YYYY-MM-DD], alone or followed by [T] and a
    time. *)
Definition parseFields (s : string) : option IsoFields :=
  match parseYear s with
  | Some (y, EmptyString) => Some (dateOnly y 1 1)
  | Some (y, String "T"%char r) => parseTime y 1 1 r
  | Some (y, String "-"%char r) =>
      match digits 2 0 r with
      | Some (mo, EmptyString) => Some (dateOnly y mo 1)
      | Some (mo, String "T"%char r1) => parseTime y mo 1 r1
      | Some (mo, String "-"%char r1) =>
          match digits 2 0 r1 with
          | Some (d, EmptyString) => Some (dateOnly y mo d)
          | Some (d, String "T"%char r2) => parseTime y mo d r2
          | _ => None
          end
      | _ => None
      end
  | _ => None
  end.

Definition DaysInMonth (y mo : Z) : Z :=
  if mo =? 2 then (if DaysInYear y =? 366 then 29 else 28)
  else if (mo =? 4) || (mo =? 6) || (mo =? 9) || (mo =? 11) then 30
  else 31.

(** Every element within its bounds; hour 24 only as [24:00:00.000]. *)
Definition inBounds (f : IsoFields) : bool :=
  (1 <=? iso_month f) && (iso_month f <=? 12)
  && (1 <=? iso_day f) && (iso_day f <=? DaysInMonth (iso_year f) (iso_month f))
  && (iso_hour f <=? 24) && (iso_min f <=? 59) && (iso_sec f <=? 59)
  && ((iso_hour f <? 24)
      || ((iso_min f =? 0) && (iso_sec f =? 0) && (iso_ms f =? 0))).

(** *** French locale data (CLDR) *)

Definition monthsLong : list string :=
  ["janvier"; "février"; "mars"; "avril"; "mai"; "juin"; "juillet";
   "août"; "septembre"; "octobre"; "novembre"; "décembre"]%string.

Definition monthLong (m : Z) : string :=
  nth (Z.to_nat m) monthsLong ""%string.

Definition decimal (n : Z) : string :=
  NilZero.string_of_uint (N.to_uint (Z.to_N n)).

Definition pad2 (n : Z) : string :=
  if n <? 10 then ("0" ++ decimal n)%string else decimal n.

(** Pattern letter [y]: the year of the era, without the era. *)
Definition yearText (y : Z) : string :=
  decimal (if y <=? 0 then 1 - y else y).

(** GetOption: an absent property stays absent, an unknown value is a
    RangeError. *)
Definition getNumStyle (o : option string) : Completion (option NumStyle) :=
  match o with
  | None => Normal None
  | Some v =>
      if (v =? "numeric")%string then Normal (Some Numeric)
      else if (v =? "2-digit")%string then Normal (Some TwoDigit)
      else Throw RangeError
  end.

Definition getMonthStyle (o : option string)
  : Completion (option MonthStyle) :=
  match o with
  | None => Normal None
  | Some v =>
      if (v =? "numeric")%string then Normal (Some MNumeric)
      else if (v =? "2-digit")%string then Normal (Some MTwoDigit)
      else if (v =? "long")%string then Normal (Some MLong)
      else if (v =? "short")%string then Normal (Some MShort)
      else if (v =? "narrow")%string then Normal (Some MNarrow)
      else Throw RangeError
  end.

Definition resolveOptions (o : DateTimeFormatOptions)
  : Completion ResolvedOptions :=
  (let* y := getNumStyle (year o) in
   let* mo := getMonthStyle (month o) in
   let* d := getNumStyle (day o) in
   let* h := getNumStyle (hour o) in
   let* mi := getNumStyle (minute o) in
   Normal {| r_year := y; r_month := mo; r_day := d;
             r_hour := h; r_minute := mi |})%js.

Section WithEngine.

Context (E : Engine).

Definition LocalTime (t : Z) : Z := t + LocalTZA E t true.
Definition UTC (t : Z) : Z := t - LocalTZA E t false.

(** The time value of a string in the format: a date-only form is UTC,
    a date-time form without offset is local time. *)
Definition isoTimeValue (f : IsoFields) : TimeValue :=
  let tv := MakeDate (MakeDay (iso_year f) (iso_month f - 1) (iso_day f))
              (MakeTime (iso_hour f) (iso_min f) (iso_sec f) (iso_ms f)) in
  TimeClip
    match iso_offset f with
    | Some off => tv - off * msPerMinute
    | None => if iso_has_time f then UTC tv else tv
    end.

(** A string in the format, with every element in bounds. *)
Definition parseISO (s : string) : TimeValue :=
  match parseFields s with
  | Some f => if inBounds f then isoTimeValue f else None
  | None => None
  end.

(** [Date.parse]: the format first; any other string is left to the
    engine (which answers NaN for what it does not recognise). *)
Definition Date_parse (s : string) : TimeValue :=
  match parseISO s with
  | Some t => Some t
  | None => legacyParse E s
  end.

(** [new Date(value)] with one argument. *)
Definition Date_new (value : JsValue) : TimeValue :=
  match value with
  | JStr s => Date_parse s
  | JUndefined => None
  | JNull => TimeClip 0
  | JBool b => TimeClip (if b then 1 else 0)
  end.

(** The fr-FR rendering of the fields the script asks for; the other
    combinations are the engine's. *)
Definition formatFr (o : ResolvedOptions) (t : Z) : string :=
  let lt := LocalTime t in
  match o with
  | {| r_year := Some Numeric; r_month := Some MLong;
       r_day := Some Numeric; r_hour := Some TwoDigit;
       r_minute := Some TwoDigit |} =>
      (decimal (DateFromTime lt) ++ " " ++ monthLong (MonthFromTime lt)
       ++ " " ++ yearText (YearFromTime lt) ++ dateTimeGlue E
       ++ pad2 (HourFromTime lt) ++ ":" ++ pad2 (MinFromTime lt))%string
  | _ => otherPattern E o t
  end.

(** [date.toLocaleDateString(locales, options)] (ECMA-402 19.4.2): the
    NaN test comes before the options are read. *)
Definition toLocaleDateString (date : TimeValue) (locales : string)
    (options : DateTimeFormatOptions) : Completion string :=
  match date with
  | None => Normal "Invalid Date"%string
  | Some t =>
      if (locales =? "fr-FR")%string then
        (let* o := resolveOptions options in Normal (formatFr o t))%js
      else otherLocale E locales options t
  end.

End WithEngine.

End DateHost.

(** ** Host model: simple dialogs (HTML, [window.confirm]) *)

Module Window.

(** The dialogs shown so far, oldest first, and the user: the answer
    given to a dialog may depend on what was shown before and on its
    message. *)
Record Window : Type := {
  shown : list string;
  user : list string -> string -> bool
}.

(** [confirm(message)]: shows the message, blocks, returns the answer. *)
Definition confirm (message : JsValue) (w : Window) : bool * Window :=
  let m := ToString message in
  (user w (shown w) m, {| shown := shown w ++ [m]; user := user w |}).

End Window.

(** ** Host model: the DOM *)

Module Dom.

Local Open Scope list_scope.
Local Open Scope nat_scope.
#[local] Set Warnings "-register-all".

(** What an element carries besides its children.  [detached] records
    that [remove()] took the element out of its parent: the element and
    its subtree still exist (listeners keep their references) but are no
    longer part of the page.  The script never creates or moves a node,
    so the position of an element in the tree the page was loaded with
    identifies it for good. *)
Record Attrs : Type := {
  id : string;
  classList : list string;
  detached : bool
}.

Inductive Element : Type :=
| Elem (attrs : Attrs) (children : list Element).

Definition elem_attrs (e : Element) : Attrs :=
  match e with Elem a _ => a end.

Definition elem_children (e : Element) : list Element :=
  match e with Elem _ cs => cs end.

(** A reference to an element: the child indices from the root. *)
Definition Path : Type := list nat.

Fixpoint node_at (p : Path) (e : Element) : option Element :=
  match p with
  | [] => Some e
  | i :: q =>
      match elem_children e !! i with
      | Some c => node_at q c
      | None => None
      end
  end.

Definition attrs_at (p : Path) (e : Element) : option Attrs :=
  option_map elem_attrs (node_at p e).

(** Changes what the element at [p] carries; the tree keeps its shape. *)
Fixpoint update_at (g : Attrs -> Attrs) (p : Path) (e : Element)
  {struct p} : Element :=
  match p with
  | [] => Elem (g (elem_attrs e)) (elem_children e)
  | i :: q => Elem (elem_attrs e) (alter (update_at g q) i (elem_children e))
  end.

(** The paths listed by [f] for each child, behind the index of the child
    (counted from [i]). *)
Fixpoint walk {A : Type} (f : A -> list Path) (i : nat) (cs : list A)
  : list Path :=
  match cs with
  | [] => []
  | c :: cs' => map (cons i) (f c) ++ walk f (S i) cs'
  end.

(** The elements below [e] that are still attached to it, [e] first, in
    tree order. *)
Fixpoint descendants (e : Element) : list Path :=
  match e with
  | Elem _ cs =>
      [] :: walk (fun c => if detached (elem_attrs c) then []
                           else descendants c) 0 cs
  end.

(** The elements of the document whose root element is [page]. *)
Definition elements (page : Element) : list Path :=
  if detached (elem_attrs page) then [] else descendants page.

Definition has_id (name : string) (p : Path) (page : Element) : bool :=
  match attrs_at p page with
  | Some a => (id a =? name)%string
  | None => false
  end.

(** The selectors the script uses are class selectors. *)
Inductive Selector : Type :=
| Class (name : string).

Definition contains (token : string) (tokens : list string) : bool :=
  existsb (String.eqb token) tokens.

Definition matches (sel : Selector) (p : Path) (page : Element) : bool :=
  match sel, attrs_at p page with
  | Class c, Some a => contains c (classList a)
  | _, None => false
  end.

(** The element and its ancestors, nearest first, [k] being the depth of
    the element to start from.  A detached element has no parent. *)
Fixpoint chain (page : Element) (p : Path) (k : nat) : list Path :=
  let q := firstn k p in
  q :: match attrs_at q page, k with
       | Some a, S k' => if detached a then [] else chain page p k'
       | _, _ => []
       end.

Definition inclusive_ancestors (page : Element) (p : Path) : list Path :=
  chain page p (length p).

(** Whether the element is part of the page: it exists and neither it
    nor an ancestor is detached. *)
Definition in_document (p : Path) (page : Element) : bool :=
  forallb (fun k => match attrs_at (firstn k p) page with
                    | Some a => negb (detached a)
                    | None => false
                    end) (seq 0 (S (length p))).

Definition elementById (name : string) (page : Element) : option Path :=
  find (fun p => has_id name p page) (elements page).

Definition selectAll (sel : Selector) (page : Element) : list Path :=
  List.filter (fun p => matches sel p page) (elements page).

Definition closestMatch (sel : Selector) (el : Path) (page : Element)
  : option Path :=
  find (fun q => matches sel q page) (inclusive_ancestors page el).

(** [DOMTokenList.toggle] on the ordered set of class tokens. *)
Definition toggle_token (token : string) (tokens : list string)
  : list string :=
  if contains token tokens
  then List.filter (fun c => negb (c =? token)%string) tokens
  else tokens ++ [token].

Definition is_space (c : ascii) : bool :=
  let n := nat_of_ascii c in
  (n =? 9)%nat || (n =? 10)%nat || (n =? 12)%nat || (n =? 13)%nat
  || (n =? 32)%nat.

Definition has_space (s : string) : bool :=
  existsb is_space (list_ascii_of_string s).

Definition set_classList (g : list string -> list string) (a : Attrs)
  : Attrs :=
  {| id := id a; classList := g (classList a); detached := detached a |}.

Definition set_detached (a : Attrs) : Attrs :=
  {| id := id a; classList := classList a; detached := true |}.

(** *** Event targets, listeners, the state of a loaded page *)

Inductive Target : Type :=
| DocumentNode
| Node (p : Path).

Definition path_eqb (p q : Path) : bool := bool_decide (p = q).

Definition target_eqb (t u : Target) : bool :=
  match t, u with
  | DocumentNode, DocumentNode => true
  | Node p, Node q => path_eqb p q
  | _, _ => false
  end.

Section WithCallbacks.

(** The callbacks of the script: each one is a function of the script
    together with the variables it captured. *)
Context {Callback : Type}.

Record Listener : Type := {
  l_target : Target;
  l_type : string;
  l_callback : Callback
}.

(** The page tree, the listeners added so far (oldest first) and the
    exceptions that reached the host from a listener. *)
Record State : Type := {
  page : Element;
  registry : list Listener;
  reported : list JsError
}.

(** A piece of script: it may change the state and it completes
    normally or throws. *)
Definition DomM (A : Type) : Type := State -> Completion A * State.

Definition ret {A : Type} (a : A) : DomM A := fun st => (Normal a, st).

Definition throw {A : Type} (e : JsError) : DomM A :=
  fun st => (Throw e, st).

Definition bindM {A B : Type} (m : DomM A) (k : A -> DomM B) : DomM B :=
  fun st =>
    match m st with
    | (Normal a, st') => k a st'
    | (Throw e, st') => (Throw e, st')
    end.

Definition set_page (e : Element) (st : State) : State :=
  {| page := e; registry := registry st; reported := reported st |}.

(** [document.getElementById(name)]: the first element, in tree order,
    with that id, or null. *)
Definition getElementById (name : string) : DomM (option Path) :=
  fun st => (Normal (elementById name (page st)), st).

(** [document.querySelectorAll(sel)]: the matching elements, in tree
    order. *)
Definition querySelectorAll (sel : Selector) : DomM (list Path) :=
  fun st => (Normal (selectAll sel (page st)), st).

(** [el.closest(sel)]: the nearest of the element and its ancestors
    that matches, or null. *)
Definition closest (el : Path) (sel : Selector) : DomM (option Path) :=
  fun st => (Normal (closestMatch sel el (page st)), st).

(** [el.remove()]: nothing happens when the element has no parent. *)
Definition remove (el : Path) : DomM unit :=
  fun st => (Normal tt, set_page (update_at set_detached el (page st)) st).

(** [el.classList.toggle(token)]: returns whether the token is present
    afterwards. *)
Definition classList_toggle (el : Path) (token : string) : DomM bool :=
  fun st =>
    if (token =? "")%string then (Throw (DOMException "SyntaxError"), st)
    else if has_space token
    then (Throw (DOMException "InvalidCharacterError"), st)
    else
      (Normal (match attrs_at el (page st) with
               | Some a => negb (contains token (classList a))
               | None => false
               end),
       set_page (update_at (set_classList (toggle_token token)) el
                   (page st)) st).

(** [target.addEventListener(type, callback)] *)
Definition addEventListener (target : Target) (type : string)
    (callback : Callback) : DomM unit :=
  fun st =>
    (Normal tt,
     {| page := page st;
        registry := registry st
                    ++ [{| l_target := target; l_type := type;
                           l_callback := callback |}];
        reported := reported st |}).

(** ToBoolean of a reference: an object is truthy, null is not. *)
Definition truthy {A : Type} (o : option A) : bool :=
  match o with
  | Some _ => true
  | None => false
  end.

(** A property access or method call on a reference that may be null. *)
Definition deref {A : Type} (o : option A) : DomM A :=
  match o with
  | Some a => ret a
  | None => throw TypeError
  end.

(** [list.forEach(f)] *)
Fixpoint forEach {A : Type} (l : list A) (f : A -> DomM unit)
  : DomM unit :=
  match l with
  | [] => ret tt
  | a :: l' => bindM (f a) (fun _ => forEach l' f)
  end.

(** *** Event dispatch *)

(** [run] gives the body of each callback. *)
Context (run : Callback -> DomM unit).

Definition listenersFor (t : Target) (type : string) (st : State)
  : list Callback :=
  map l_callback
    (List.filter (fun l => target_eqb (l_target l) t
                      && (l_type l =? type)%string) (registry st)).

(** An exception thrown by a listener is reported; the next listener
    runs all the same. *)
Definition report (r : Completion unit * State) : State :=
  match r with
  | (Normal _, st) => st
  | (Throw e, st) =>
      {| page := page st; registry := registry st;
         reported := reported st ++ [e] |}
  end.

Fixpoint invoke (cbs : list Callback) (st : State) : State :=
  match cbs with
  | [] => st
  | cb :: cbs' => invoke cbs' (report (run cb st))
  end.

(** The listeners of a target are read when the event reaches it. *)
Fixpoint dispatchAlong (path : list Target) (type : string) (st : State)
  : State :=
  match path with
  | [] => st
  | t :: path' =>
      dispatchAlong path' type (invoke (listenersFor t type st) st)
  end.

(** The path of an event is fixed before any listener runs: the target,
    its ancestors and, when they lead to the root of the page, the
    document. *)
Definition eventPath (t : Target) (st : State) : list Target :=
  match t with
  | DocumentNode => [DocumentNode]
  | Node p =>
      map Node (inclusive_ancestors (page st) p)
      ++ (if in_document p (page st) then [DocumentNode] else [])
  end.

Definition dispatchEvent (t : Target) (type : string) (st : State)
  : State :=
  dispatchAlong (eventPath t st) type st.

End WithCallbacks.

Arguments Listener : clear implicits.
Arguments State : clear implicits.
Arguments DomM : clear implicits.

End Dom.

Declare Scope dom_scope.
Delimit Scope dom_scope with dom.
Notation "'let*' x ':=' c 'in' k" := (Dom.bindM c (fun x => k))
  (at level 10, x name, c at level 100, k at level 200) : dom_scope.

(** ** The script [src/static/js/main.js] *)

Module Main.

Import DateHost Window Dom.

(** The three arrow functions of the script, with what they capture:
    the page-ready callback (lines 5-22) captures nothing, the click
    callback of the sidebar button (lines 11-13) captures [sidebar], the
    click callback of a close control (lines 18-20) captures [b]. *)
Inductive Callback : Type :=
| OnDOMContentLoaded
| OnSidebarClick (sidebar : option Path)
| OnAlertCloseClick (b : Path).

(** [() => { sidebar.classList.toggle("open"); }] *)
Definition onSidebarClick (sidebar : option Path) : DomM Callback unit :=
  (let* el := deref sidebar in
   let* _ := classList_toggle el "open" in
   ret tt)%dom.

(** [() => { b.closest(".alert")?.remove(); }] *)
Definition onAlertCloseClick (b : Path) : DomM Callback unit :=
  (let* alert := closest b (Class "alert") in
   match alert with
   | None => ret tt
   | Some el => remove el
   end)%dom.

(** The body of the page-ready callback. *)
Definition onDOMContentLoaded : DomM Callback unit :=
  (let* btn := getElementById "btnSidebar" in
   let* sidebar := getElementById "sidebar" in
   let* _ :=
     if truthy btn && truthy sidebar then
       let* el := deref btn in
       addEventListener (Node el) "click" (OnSidebarClick sidebar)
     else ret tt in
   let* closers := querySelectorAll (Class "alert-close") in
   forEach closers (fun b =>
     addEventListener (Node b) "click" (OnAlertCloseClick b)))%dom.

Definition run (cb : Callback) : DomM Callback unit :=
  match cb with
  | OnDOMContentLoaded => onDOMContentLoaded
  | OnSidebarClick sidebar => onSidebarClick sidebar
  | OnAlertCloseClick b => onAlertCloseClick b
  end.

(** The top level of the script: line 5. *)
Definition script : DomM Callback unit :=
  addEventListener DocumentNode "DOMContentLoaded" OnDOMContentLoaded.

Definition initial (page : Element) : State Callback :=
  {| page := page; registry := []; reported := [] |}.

(** The script runs while the page loads, then the page is ready. *)
Definition load (page : Element) : State Callback :=
  dispatchEvent run DocumentNode "DOMContentLoaded"
    (report (script (initial page))).

Definition click (el : Path) (st : State Callback) : State Callback :=
  dispatchEvent run (Node el) "click" st.

Fixpoint clicks (n : nat) (el : Path) (st : State Callback)
  : State Callback :=
  match n with
  | O => st
  | S n' => clicks n' el (click el st)
  end.

Definition defaultMessage : string :=
  "Êtes-vous sûr de vouloir supprimer cet élément ?".

(** Lines 27-29. *)
Definition confirmDelete (message : JsValue) : Window -> bool * Window :=
  confirm (logical_or message (JStr defaultMessage)).

(** Lines 32-42. *)
Definition formatDate (E : Engine) (dateString : JsValue)
  : Completion string :=
  if logical_not dateString then Normal "" else
  let date := Date_new E dateString in
  toLocaleDateString E date "fr-FR"
    {| year := Some "numeric";
       month := Some "long";
       day := Some "numeric";
       hour := Some "2-digit";
       minute := Some "2-digit" |}.

(** Lines 45-48. *)
Definition checkAccess (action : JsValue) : bool := true.

End Main.

(** ** The older copy of the utilities, [src/unnamed/part_000] *)

Module Part000.

Import DateHost Window.

(** Lines 5-7. *)
Definition confirmDelete (message : JsValue) : Window -> bool * Window :=
  confirm (logical_or message
             (JStr "Êtes-vous sûr de vouloir supprimer cet élément ?")).

(** Lines 10-19: no test of [dateString]. *)
Definition formatDate (E : Engine) (dateString : JsValue)
  : Completion string :=
  let date := Date_new E dateString in
  toLocaleDateString E date "fr-FR"
    {| year := Some "numeric";
       month := Some "long";
       day := Some "numeric";
       hour := Some "2-digit";
       minute := Some "2-digit" |}.

(** Lines 22-25. *)
Definition checkAccess (action : JsValue) : bool := true.

End Part000.

Local Open Scope list_scope.

(** ** Concrete hosts and pages used in the examples *)

Module Examples.

Import DateHost Window Dom.

(** An engine in a zone one hour east of UTC, with current locale data
    and no date format besides the ISO one. *)
Definition cetEngine : Engine :=
  {| LocalTZA := fun _ _ => 3600000;
     legacyParse := fun _ => None;
     dateTimeGlue := " à ";
     otherLocale := fun _ _ _ => Throw RangeError;
     otherPattern := fun _ _ => ""%string;
     legacyParse_empty := eq_refl |}.

(** A user who accepts every dialog, one who declines every dialog. *)
Definition accepting : Window :=
  {| shown := []; user := fun _ _ => true |}.

Definition declining : Window :=
  {| shown := []; user := fun _ _ => false |}.

Definition el (i : string) (classes : list string)
    (children : list Element) : Element :=
  Elem {| id := i; classList := classes; detached := false |} children.

(** A page with the sidebar, its button and three alerts. *)
Definition threeAlerts : Element :=
  el "" []
    [ el "btnSidebar" [] [];
      el "sidebar" ["sidebar"] [];
      el "a1" ["alert"] [el "" ["alert-close"] []];
      el "a2" ["alert"; "alert-danger"] [el "" ["alert-close"] []];
      el "a3" ["alert"] [el "" ["alert-close"] []] ]%string.

(** The same page without the sidebar. *)
Definition noSidebar : Element :=
  el "" []
    [ el "btnSidebar" [] [];
      el "a1" ["alert"] [el "" ["alert-close"] []] ]%string.

(** A close control with no alert around it. *)
Definition strayCloser : Element :=
  el "" []
    [ el "" ["alert-close"] [];
      el "a1" ["alert"] [el "" ["alert-close"] []] ]%string.

(** An alert inside a clickable close area of another alert. *)
Definition nestedAlerts : Element :=
  el "" []
    [ el "outer" ["alert"]
        [ el "" ["alert-close"]
            [ el "inner" ["alert"] [el "" ["alert-close"] []] ] ];
      el "other" ["alert"] [] ]%string.

End Examples.

(** ** The listeners a page is expected to end up with *)

Module Wiring.

Import Dom Main.

Definition readyListener : Listener Callback :=
  {| l_target := DocumentNode; l_type := "DOMContentLoaded";
     l_callback := OnDOMContentLoaded |}.

Definition closeListener (b : Path) : Listener Callback :=
  {| l_target := Node b; l_type := "click";
     l_callback := OnAlertCloseClick b |}.

(** One listener on the sidebar button, when the page has both the
    button and the sidebar. *)
Definition sidebarListeners (page : Element) : list (Listener Callback) :=
  match elementById "btnSidebar" page, elementById "sidebar" page with
  | Some btn, Some sidebar =>
      [{| l_target := Node btn; l_type := "click";
          l_callback := OnSidebarClick (Some sidebar) |}]
  | _, _ => []
  end.

Definition closers (page : Element) : list Path :=
  selectAll (Class "alert-close") page.

Definition wired (page : Element) : list (Listener Callback) :=
  readyListener :: sidebarListeners page ++ map closeListener (closers page).

Definition is_sidebar_callback (cb : Callback) : bool :=
  match cb with
  | OnSidebarClick _ => true
  | _ => false
  end.

(** The class tokens of the element at [p], when there is one. *)
Definition classes_at (p : Path) (page : Element) : option (list string) :=
  option_map classList (attrs_at p page).

(** Among the control [b] and its ancestors no other element has a click
    listener: none of them is the sidebar button and no ancestor is
    itself a close control. *)
Definition alone_on_path (b : Path) (page : Element) : bool :=
  forallb (fun q => negb (has_id "btnSidebar" q page)
                    && (path_eqb q b
                        || negb (matches (Class "alert-close") q page)))
    (inclusive_ancestors page b).

Definition only_closers (cbs : list Callback) : Prop :=
  Forall (fun cb => exists b, cb = OnAlertCloseClick b) cbs.

(** The callbacks a click can run on a loaded page. *)
Definition click_callback (cb : Callback) : Prop :=
  (exists sb, cb = OnSidebarClick (Some sb))
  \/ (exists b, cb = OnAlertCloseClick b).

(** The same, for the page that was loaded as [page0]. *)
Definition from_page (page0 : Element) (cb : Callback) : Prop :=
  (exists sb, elementById "sidebar" page0 = Some sb
              /\ cb = OnSidebarClick (Some sb))
  \/ (exists b, cb = OnAlertCloseClick b).

(** A visit: clicks on the given elements, one after the other. *)
Fixpoint session (els : list Path) (st : State Callback) : State Callback :=
  match els with
  | [] => st
  | el :: els' => session els' (click el st)
  end.

(** [pg'] has the elements of [pg] at the same places, with the same ids
    and, the token "open" apart, the same classes; what was detached in
    [pg] is detached in [pg']. *)
Definition evolves (pg pg' : Element) : Prop :=
  forall q,
    match attrs_at q pg, attrs_at q pg' with
    | Some a, Some a' =>
        id a' = id a
        /\ (detached a = true -> detached a' = true)
        /\ (forall c, c <> "open"%string ->
                      contains c (classList a') = contains c (classList a))
    | None, None => True
    | _, _ => False
    end.

(** The page once the element at [el] is detached. *)
Definition without (el : Path) (page : Element) : Element :=
  update_at set_detached el page.

End Wiring.

(** * Properties *)

Import DateHost Window Dom Examples Wiring.

(** ** The utilities *)

(** C1: [checkAccess] answers [true] whatever the action (the empty string
    and a missing argument included): the action is not looked at, in
    either copy of the function. *)
Theorem checkAccess_always_true :
  (forall action : JsValue,
      Main.checkAccess action = true /\ Part000.checkAccess action = true)
  /\ Main.checkAccess (JStr "") = true
  /\ Main.checkAccess JUndefined = true.
Proof. repeat split. Qed.

(** C2: the guarded [formatDate] returns the empty string, normally, for
    the empty string and for a missing argument. *)
Theorem formatDate_empty_or_absent (E : Engine) :
  Main.formatDate E (JStr "") = Normal ""%string
  /\ Main.formatDate E JUndefined = Normal ""%string.
Proof. split; reflexivity. Qed.

Lemma parseISO_empty (E : Engine) : parseISO E "" = None.
Proof. reflexivity. Qed.

Lemma Date_parse_empty (E : Engine) : Date_parse E "" = None.
Proof.
  unfold Date_parse. rewrite parseISO_empty. apply legacyParse_empty.
Qed.

Lemma truthy_nonempty (s : string) : s <> ""%string -> ToBoolean (JStr s) = true.
Proof. destruct s as [|c s]; [congruence | reflexivity]. Qed.

Lemma formatDate_guard_passed (E : Engine) (v : JsValue) :
  ToBoolean v = true -> Main.formatDate E v = Part000.formatDate E v.
Proof.
  intros Hv. unfold Main.formatDate, Part000.formatDate, logical_not.
  now rewrite Hv.
Qed.

Lemma unguarded_formatDate_empty (E : Engine) :
  Part000.formatDate E (JStr "") = Normal "Invalid Date"%string.
Proof.
  unfold Part000.formatDate, Date_new. now rewrite Date_parse_empty.
Qed.

(** C3: the two copies of [formatDate] give the same result on a string
    exactly when the string is not empty; on the empty string (and on a
    missing argument) the copy without the test renders "Invalid Date"
    and the guarded copy returns the empty string. *)
Theorem formatDate_copies_differ_on_empty_only (E : Engine) :
  Part000.formatDate E (JStr "") = Normal "Invalid Date"%string
  /\ Main.formatDate E (JStr "") = Normal ""%string
  /\ Part000.formatDate E JUndefined = Normal "Invalid Date"%string
  /\ Main.formatDate E JUndefined = Normal ""%string
  /\ forall s : string,
       Main.formatDate E (JStr s) = Part000.formatDate E (JStr s)
       <-> s <> ""%string.
Proof.
  split; [apply unguarded_formatDate_empty|].
  repeat (split; [reflexivity|]).
  intros s. split.
  - intros Heq ->. rewrite unguarded_formatDate_empty in Heq. discriminate.
  - intros Hs. apply formatDate_guard_passed, truthy_nonempty, Hs.
Qed.

Lemma formatDate_copies_differ_on_empty_only_witness :
  Main.formatDate cetEngine (JStr "2024-03-05T14:30:00")
  = Part000.formatDate cetEngine (JStr "2024-03-05T14:30:00").
Proof.
  apply (proj2 (proj2 (proj2 (proj2
           (formatDate_copies_differ_on_empty_only cetEngine))))).
  discriminate.
Defined.

(** C4, as stated, fails: with the empty string as message the dialog
    shows the default text, not the message supplied. *)
Lemma confirmDelete_empty_message_shows_default :
  ~ (forall (message : string) (w : Window),
        shown (snd (Main.confirmDelete (JStr message) w))
        = shown w ++ [message]).
Proof.
  intros H. specialize (H ""%string accepting). vm_compute in H. discriminate.
Qed.

(** C4, amended: [confirmDelete] shows one dialog and returns the user's
    answer to it, changing nothing else; the dialog carries the message
    when it is a non-empty string, and the default French text when the
    message is missing or is the empty string. *)
Theorem confirmDelete_prompt :
  (forall (s : string) (w : Window), s <> ""%string ->
      Main.confirmDelete (JStr s) w
      = (user w (shown w) s, {| shown := shown w ++ [s]; user := user w |}))
  /\ (forall (message : JsValue) (w : Window),
        message = JUndefined \/ message = JStr "" ->
        Main.confirmDelete message w
        = (user w (shown w) Main.defaultMessage,
           {| shown := shown w ++ [Main.defaultMessage]; user := user w |})).
Proof.
  split.
  - intros s w Hs. unfold Main.confirmDelete, confirm, logical_or.
    now rewrite (truthy_nonempty s Hs).
  - intros message w [-> | ->]; reflexivity.
Qed.

Lemma confirmDelete_prompt_witness :
  Main.confirmDelete (JStr "Supprimer ?") declining
  = (false, {| shown := ["Supprimer ?"%string]; user := user declining |})
  /\ Main.confirmDelete JUndefined declining
     = (false, {| shown := [Main.defaultMessage]; user := user declining |}).
Proof.
  split.
  - apply (proj1 confirmDelete_prompt "Supprimer ?"%string declining).
    discriminate.
  - apply (proj2 confirmDelete_prompt JUndefined declining).
    left. reflexivity.
Defined.

(** C5: for every date string that does not parse as a valid date,
    [formatDate] returns "Invalid Date", as a normal result: nothing is
    thrown.  A date string is a string that reaches the parser, that is a
    non-empty one: the empty string is answered by the guard (C2). *)
Theorem formatDate_unparseable (E : Engine) (s : string) :
  s <> ""%string ->
  Date_parse E s = None ->
  Main.formatDate E (JStr s) = Normal "Invalid Date"%string.
Proof.
  intros Hs Hp. rewrite (formatDate_guard_passed E _ (truthy_nonempty s Hs)).
  unfold Part000.formatDate, Date_new. now rewrite Hp.
Qed.

Lemma formatDate_unparseable_witness :
  Main.formatDate cetEngine (JStr "31/12/2024") = Normal "Invalid Date"%string.
Proof.
  apply formatDate_unparseable; [discriminate | reflexivity].
Defined.

(** C10: the two copies of [confirmDelete] show the same dialog and return
    the same answer, and the two copies of [checkAccess] return the same
    value, on every input. *)
Theorem utilities_copies_agree :
  (forall (message : JsValue) (w : Window),
      Main.confirmDelete message w = Part000.confirmDelete message w)
  /\ (forall action : JsValue,
        Main.checkAccess action = Part000.checkAccess action).
Proof. split; reflexivity. Qed.

(** *** Rendering of valid dates *)

Lemma MonthFromTime_range (t : Z) : 0 <= MonthFromTime t < 12.
Proof.
  unfold MonthFromTime.
  repeat match goal with
         | |- context [if ?b then _ else _] => destruct b
         end; lia.
Qed.

Lemma monthLong_listed (m : Z) : 0 <= m < 12 -> In (monthLong m) monthsLong.
Proof.
  intros Hm. unfold monthLong.
  apply nth_In. unfold monthsLong. simpl length. lia.
Qed.

Lemma HourFromTime_range (t : Z) : 0 <= HourFromTime t < 24.
Proof. unfold HourFromTime. apply Z.mod_pos_bound. lia. Qed.

Lemma MinFromTime_range (t : Z) : 0 <= MinFromTime t < 60.
Proof. unfold MinFromTime. apply Z.mod_pos_bound. lia. Qed.

Lemma length_append (a b : string) :
  String.length (a ++ b)%string = (String.length a + String.length b)%nat.
Proof. induction a as [|c a IH]; simpl; [reflexivity | now rewrite IH]. Qed.

Lemma append_assoc (a b c : string) :
  ((a ++ b) ++ c = a ++ (b ++ c))%string.
Proof. induction a as [|x a IH]; simpl; [reflexivity | now rewrite IH]. Qed.

(** What the script's call of [toLocaleDateString] returns for a valid
    time value. *)
Lemma formatDate_valid (E : Engine) (v : JsValue) (t : Z) :
  ToBoolean v = true ->
  Date_new E v = Some t ->
  let lt := LocalTime E t in
  Main.formatDate E v
  = Normal (decimal (DateFromTime lt) ++ " " ++ monthLong (MonthFromTime lt)
            ++ " " ++ yearText (YearFromTime lt) ++ dateTimeGlue E
            ++ pad2 (HourFromTime lt) ++ ":" ++ pad2 (MinFromTime lt))%string.
Proof.
  intros Hv Ht lt. rewrite (formatDate_guard_passed E v Hv).
  unfold Part000.formatDate. rewrite Ht. reflexivity.
Qed.

Lemma parseISO_nonempty (E : Engine) (s : string) (t : Z) :
  parseISO E s = Some t -> s <> ""%string.
Proof. intros H ->. discriminate. Qed.

(** C8: for every string in the ISO format that denotes a valid date,
    [formatDate] returns, normally, a non-empty text that contains the
    full French name of the month and the hour and minute, two digits
    each, around a colon (the month, hour and minute being those of the
    date in local time). *)
Theorem formatDate_valid_iso (E : Engine) (s : string) (t : Z) :
  parseISO E s = Some t ->
  let lt := LocalTime E t in
  exists out : string,
    Main.formatDate E (JStr s) = Normal out
    /\ out <> ""%string
    /\ In (monthLong (MonthFromTime lt)) monthsLong
    /\ Substring (monthLong (MonthFromTime lt)) out
    /\ 0 <= HourFromTime lt < 24
    /\ 0 <= MinFromTime lt < 60
    /\ Substring (pad2 (HourFromTime lt) ++ ":" ++ pad2 (MinFromTime lt)) out.
Proof.
  intros Hp lt.
  assert (Hv : ToBoolean (JStr s) = true)
    by (apply truthy_nonempty; eapply parseISO_nonempty; eauto).
  assert (Hd : Date_new E (JStr s) = Some t)
    by (simpl; unfold Date_parse; now rewrite Hp).
  eexists. split; [apply (formatDate_valid E _ t Hv Hd)|]. fold lt.
  split; [|split; [|split; [|split; [|split]]]].
  - intros H. apply (f_equal String.length) in H.
    rewrite !length_append in H. simpl in H. lia.
  - apply monthLong_listed, MonthFromTime_range.
  - exists (decimal (DateFromTime lt) ++ " ")%string.
    eexists. rewrite append_assoc. reflexivity.
  - apply HourFromTime_range.
  - apply MinFromTime_range.
  - exists (decimal (DateFromTime lt) ++ " " ++ monthLong (MonthFromTime lt)
            ++ " " ++ yearText (YearFromTime lt) ++ dateTimeGlue E)%string.
    exists ""%string.
    rewrite !append_assoc. simpl.
    repeat f_equal.
    induction (pad2 (MinFromTime lt)) as [|c r IH]; simpl;
      [reflexivity | now rewrite <- IH].
Qed.

Lemma formatDate_valid_iso_witness :
  exists out : string,
    Main.formatDate cetEngine (JStr "2024-03-05T14:30:00") = Normal out
    /\ out <> ""%string
    /\ In "mars"%string monthsLong
    /\ Substring "mars" out
    /\ 0 <= 14 < 24
    /\ 0 <= 30 < 60
    /\ Substring "14:30" out.
Proof.
  exact (formatDate_valid_iso cetEngine "2024-03-05T14:30:00" 1709645400000
           eq_refl).
Defined.

(** *** The example scenarios of the specification *)

Example scenario_format :
  Main.formatDate cetEngine (JStr "2024-03-05T14:30:00")
  = Normal "5 mars 2024 à 14:30"%string.
Proof. reflexivity. Qed.

Example scenario_format_empty :
  Main.formatDate cetEngine (JStr "") = Normal ""%string.
Proof. reflexivity. Qed.

Example scenario_decline :
  fst (Main.confirmDelete JUndefined declining) = false.
Proof. reflexivity. Qed.

Example scenario_no_sidebar :
  Main.load noSidebar
  = {| Dom.page := noSidebar;
       registry := [readyListener; closeListener [1; 0]%nat];
       reported := [] |}.
Proof. reflexivity. Qed.

Example scenario_second_alert :
  elements (Dom.page (Main.click [3; 0]%nat (Main.load threeAlerts)))
  = [[]; [0]; [1]; [2]; [2; 0]; [4]; [4; 0]]%nat.
Proof. reflexivity. Qed.

(** Toggling twice brings "open" back at the end of the list. *)
Example toggle_twice_reorders :
  toggle_token "open" (toggle_token "open" ["open"; "wide"]%string)
  = ["wide"; "open"]%string.
Proof. reflexivity. Qed.

(** ** The page tree *)

Local Open Scope nat_scope.

Lemma Element_nested_ind (P : Element -> Prop) :
  (forall a cs, Forall P cs -> P (Elem a cs)) -> forall e, P e.
Proof.
  intros H. fix IH 1. intros [a cs]. apply H.
  induction cs as [|c cs IHcs]; constructor; [apply IH | exact IHcs].
Qed.

(** An update changes what the element at the given place carries, and
    nothing at any other place. *)
Lemma attrs_at_update (g : Attrs -> Attrs) (p q : Path) (e : Element) :
  attrs_at q (update_at g p e)
  = if decide (p = q) then option_map g (attrs_at q e) else attrs_at q e.
Proof.
  revert q e. induction p as [|i p IH]; intros q e.
  - destruct q as [|j q]; [reflexivity|].
    destruct (decide ([] = j :: q)) as [?|_]; [discriminate|].
    destruct e; reflexivity.
  - destruct q as [|j q].
    + destruct (decide (i :: p = [])) as [?|_]; [discriminate|].
      destruct e; reflexivity.
    + unfold attrs_at in *. simpl.
      rewrite list_lookup_alter.
      destruct (decide (i = j)) as [->|Hij].
      * destruct (elem_children e !! j) as [c|] eqn:Hc; simpl.
        -- rewrite IH. destruct (decide (p = q)) as [->|Hpq].
           ++ now rewrite !decide_True by reflexivity.
           ++ now rewrite !decide_False by congruence.
        -- now destruct (decide _).
      * now rewrite decide_False by congruence.
Qed.

Lemma attrs_at_update_same (g : Attrs -> Attrs) (p : Path) (e : Element) :
  attrs_at p (update_at g p e) = option_map g (attrs_at p e).
Proof. rewrite attrs_at_update. now rewrite decide_True by reflexivity. Qed.

Lemma attrs_at_update_other (g : Attrs -> Attrs) (p q : Path) (e : Element) :
  p <> q -> attrs_at q (update_at g p e) = attrs_at q e.
Proof. intros H. rewrite attrs_at_update. now rewrite decide_False by exact H. Qed.

(** An update that leaves every element as it is changes nothing. *)
Lemma update_at_id (g : Attrs -> Attrs) (p : Path) (e : Element) :
  (forall a, attrs_at p e = Some a -> g a = a) -> update_at g p e = e.
Proof.
  revert e. induction p as [|i p IH]; intros [a cs] Hg.
  - simpl. now rewrite (Hg a eq_refl).
  - simpl. f_equal. apply list_eq. intros j.
    rewrite list_lookup_alter.
    destruct (decide (i = j)) as [->|]; [|reflexivity].
    destruct (cs !! j) as [c|] eqn:Hc; [|reflexivity]. simpl. f_equal.
    apply IH. intros a' Ha'. apply Hg. unfold attrs_at in *. simpl.
    now rewrite Hc.
Qed.

Lemma update_at_compose (g h : Attrs -> Attrs) (p : Path) (e : Element) :
  update_at g p (update_at h p e) = update_at (fun a => g (h a)) p e.
Proof.
  revert e. induction p as [|i p IH]; intros [a cs]; [reflexivity|].
  simpl. f_equal. apply list_eq. intros j.
  rewrite !list_lookup_alter.
  destruct (decide (i = j)) as [->|]; [|reflexivity].
  rewrite ?decide_True by reflexivity.
  destruct (cs !! j) as [c|]; [|reflexivity]. simpl. now rewrite IH.
Qed.

(** *** The class list *)

Lemma contains_spec (token : string) (tokens : list string) :
  contains token tokens = true <-> In token tokens.
Proof.
  unfold contains. rewrite existsb_exists. split.
  - intros [x [Hx Heq]]. apply String.eqb_eq in Heq. now subst.
  - intros H. exists token. split; [exact H | apply String.eqb_refl].
Qed.

Lemma contains_toggle_same (token : string) (tokens : list string) :
  contains token (toggle_token token tokens) = negb (contains token tokens).
Proof.
  unfold toggle_token. destruct (contains token tokens) eqn:Hc; simpl.
  - apply not_true_is_false. rewrite contains_spec, filter_In.
    intros [_ H]. now rewrite String.eqb_refl in H.
  - apply contains_spec, in_or_app. right. now left.
Qed.

Lemma contains_toggle_other (token c : string) (tokens : list string) :
  c <> token ->
  contains c (toggle_token token tokens) = contains c tokens.
Proof.
  intros Hne. unfold toggle_token.
  apply eq_true_iff_eq. rewrite !contains_spec.
  destruct (contains token tokens).
  - rewrite filter_In. split; [tauto|]. intros H. split; [exact H|].
    apply negb_true_iff, String.eqb_neq, Hne.
  - rewrite in_app_iff. simpl. split; [|tauto].
    intros [H|[H|[]]]; [exact H | congruence].
Qed.

(** ** Loading the page *)

Lemma forEach_closers (bs : list Path) (st : State Main.Callback) :
  forEach bs (fun b =>
    addEventListener (Node b) "click" (Main.OnAlertCloseClick b)) st
  = (Normal tt,
     {| page := page st;
        registry := registry st ++ map closeListener bs;
        reported := reported st |}).
Proof.
  revert st. induction bs as [|b bs IH]; intros st; simpl.
  - unfold ret. rewrite app_nil_r. now destruct st.
  - unfold bindM, addEventListener at 1. rewrite IH. simpl.
    now rewrite <- app_assoc.
Qed.

Lemma onDOMContentLoaded_spec (st : State Main.Callback) :
  Main.onDOMContentLoaded st
  = (Normal tt,
     {| page := page st;
        registry := registry st ++ sidebarListeners (page st)
                    ++ map closeListener (closers (page st));
        reported := reported st |}).
Proof.
  unfold Main.onDOMContentLoaded, bindM, getElementById, querySelectorAll,
    sidebarListeners, closers.
  destruct (elementById "btnSidebar" (page st)) as [btn|];
    destruct (elementById "sidebar" (page st)) as [sb|]; simpl;
    rewrite forEach_closers; simpl; rewrite <- ?app_assoc; try reflexivity.
  all: now rewrite ?app_nil_r.
Qed.

(** What loading a page leaves behind: the page as it was, the listeners
    of [wired], no error. *)
Lemma load_spec (page : Element) :
  Main.load page
  = {| Dom.page := page; registry := wired page; reported := [] |}.
Proof.
  unfold Main.load, dispatchEvent, eventPath, dispatchAlong.
  unfold Main.script, Main.initial, addEventListener, report. simpl.
  unfold listenersFor. simpl. rewrite onDOMContentLoaded_spec. reflexivity.
Qed.

(** C9: when the page lacks the sidebar button or the sidebar, loading it
    reports no error, leaves the page as it is and adds no listener for the
    sidebar: besides the page-ready listener of the script itself there is
    one listener per close control. *)
Theorem load_without_sidebar (page : Element) :
  elementById "btnSidebar" page = None \/ elementById "sidebar" page = None ->
  let st := Main.load page in
  reported st = []
  /\ Dom.page st = page
  /\ registry st = readyListener :: map closeListener (closers page)
  /\ forall l, In l (registry st) -> is_sidebar_callback (l_callback l) = false.
Proof.
  intros Habsent st. subst st. rewrite load_spec. simpl.
  assert (Hs : sidebarListeners page = []).
  { unfold sidebarListeners. destruct Habsent as [-> | ->]; [reflexivity|].
    now destruct (elementById "btnSidebar" page). }
  unfold wired. rewrite Hs. simpl. repeat split.
  intros l [<- | Hl]; [reflexivity|].
  apply in_map_iff in Hl as [b [<- _]]. reflexivity.
Qed.

Lemma load_without_sidebar_witness :
  let st := Main.load noSidebar in
  reported st = []
  /\ Dom.page st = noSidebar
  /\ registry st = readyListener :: map closeListener (closers noSidebar)
  /\ forall l, In l (registry st) -> is_sidebar_callback (l_callback l) = false.
Proof.
  apply (load_without_sidebar noSidebar). right. reflexivity.
Defined.

(** ** The two click callbacks *)

Lemma onAlertCloseClick_spec (b : Path) (st : State Main.Callback) :
  Main.run (Main.OnAlertCloseClick b) st
  = (Normal tt,
     match closestMatch (Class "alert") b (page st) with
     | Some a => set_page (without a (page st)) st
     | None => st
     end).
Proof.
  simpl. unfold Main.onAlertCloseClick, bindM, closest.
  now destruct (closestMatch (Class "alert") b (page st)).
Qed.

Lemma onSidebarClick_spec (sb : Path) (st : State Main.Callback) :
  Main.run (Main.OnSidebarClick (Some sb)) st
  = (Normal tt,
     set_page (update_at (set_classList (toggle_token "open")) sb (page st))
       st).
Proof. reflexivity. Qed.

Lemma matches_classes (c : string) (q : Path) (pg : Element) :
  matches (Class c) q pg
  = match classes_at q pg with
    | Some l => contains c l
    | None => false
    end.
Proof. unfold matches, classes_at. now destruct (attrs_at q pg). Qed.

Lemma classes_at_without (a q : Path) (pg : Element) :
  classes_at q (without a pg) = classes_at q pg.
Proof.
  unfold classes_at, without. rewrite attrs_at_update.
  destruct (decide (a = q)); [|reflexivity]. now destruct (attrs_at q pg).
Qed.

Lemma classes_at_toggle (token : string) (sb q : Path) (pg : Element) :
  classes_at q (update_at (set_classList (toggle_token token)) sb pg)
  = if decide (sb = q) then option_map (toggle_token token) (classes_at q pg)
    else classes_at q pg.
Proof.
  unfold classes_at. rewrite attrs_at_update.
  destruct (decide (sb = q)); [|reflexivity]. now destruct (attrs_at q pg).
Qed.

(** *** Dispatch of a click on a loaded page *)

Lemma listenersFor_ext (t : Target) (type : string)
    (st1 st2 : State Main.Callback) :
  registry st1 = registry st2 ->
  listenersFor t type st1 = listenersFor t type st2.
Proof. unfold listenersFor. now intros ->. Qed.

(** Close callbacks keep the listeners, report nothing and leave every
    class list alone. *)
Lemma invoke_closers (cbs : list Main.Callback) (st : State Main.Callback) :
  only_closers cbs ->
  let st' := invoke Main.run cbs st in
  registry st' = registry st
  /\ reported st' = reported st
  /\ forall q, classes_at q (page st') = classes_at q (page st).
Proof.
  intros H. revert st. induction H as [|cb cbs [b ->] _ IH]; intros st.
  - now simpl.
  - cbn [invoke]. rewrite onAlertCloseClick_spec. unfold report.
    destruct (IH (match closestMatch (Class "alert") b (page st) with
                  | Some a => set_page (without a (page st)) st
                  | None => st
                  end)) as (Hr & He & Hc).
    rewrite Hr, He. split; [|split].
    + now destruct (closestMatch _ b (page st)).
    + now destruct (closestMatch _ b (page st)).
    + intros q. rewrite Hc.
      destruct (closestMatch _ b (page st)); [|reflexivity].
      apply classes_at_without.
Qed.

Lemma dispatch_closers (path : list Target) (st : State Main.Callback) :
  (forall t, In t path -> only_closers (listenersFor t "click" st)) ->
  let st' := dispatchAlong Main.run path "click" st in
  registry st' = registry st
  /\ reported st' = reported st
  /\ forall q, classes_at q (page st') = classes_at q (page st).
Proof.
  revert st. induction path as [|t path IH]; intros st H; [now simpl|].
  simpl.
  destruct (invoke_closers (listenersFor t "click" st) st) as (Hr & He & Hc);
    [apply H; now left|].
  destruct (IH (invoke Main.run (listenersFor t "click" st) st))
    as (Hr' & He' & Hc').
  { intros u Hu. rewrite (listenersFor_ext u _ _ st Hr). apply H. now right. }
  rewrite Hr', He'. repeat split; try assumption.
  intros q. now rewrite Hc'.
Qed.

Lemma filter_map_closeListener (q : Path) (bs : list Path) :
  map l_callback
    (List.filter (fun l => target_eqb (l_target l) (Node q)
                           && (l_type l =? "click")%string)
       (map closeListener bs))
  = map Main.OnAlertCloseClick (List.filter (fun b => path_eqb b q) bs).
Proof.
  induction bs as [|b bs IH]; [reflexivity|]. simpl.
  rewrite andb_true_r. destruct (path_eqb b q); simpl; now rewrite IH.
Qed.

(** The click listeners an element of a loaded page has: the sidebar
    callback when it is the button of a page that has both button and
    sidebar, then one close callback when it is a close control. *)
Lemma listenersFor_click_wired (page0 : Element) (q : Path)
    (st : State Main.Callback) :
  registry st = wired page0 ->
  listenersFor (Node q) "click" st
  = map l_callback
      (List.filter (fun l => target_eqb (l_target l) (Node q)
                             && (l_type l =? "click")%string)
         (sidebarListeners page0))
    ++ map Main.OnAlertCloseClick
         (List.filter (fun b => path_eqb b q) (closers page0)).
Proof.
  intros Hr. unfold listenersFor. rewrite Hr. unfold wired.
  cbn [List.filter readyListener l_target target_eqb andb].
  now rewrite List.filter_app, map_app, filter_map_closeListener.
Qed.

Lemma listenersFor_click_document (page0 : Element)
    (st : State Main.Callback) :
  registry st = wired page0 -> listenersFor DocumentNode "click" st = [].
Proof.
  intros Hr. unfold listenersFor. rewrite Hr. unfold wired. simpl.
  rewrite List.filter_app, map_app.
  assert (H1 : List.filter
                 (fun l : Listener Main.Callback =>
                    target_eqb (l_target l) DocumentNode
                    && (l_type l =? "click")%string)
                 (sidebarListeners page0) = []).
  { unfold sidebarListeners.
    now destruct (elementById "btnSidebar" page0),
                 (elementById "sidebar" page0). }
  rewrite H1. simpl.
  induction (closers page0) as [|b bs IH]; [reflexivity | exact IH].
Qed.

Lemma only_closers_map (bs : list Path) :
  only_closers (map Main.OnAlertCloseClick bs).
Proof.
  unfold only_closers. apply List.Forall_forall. intros cb Hcb.
  apply in_map_iff in Hcb as [b [<- _]]. now exists b.
Qed.

(** The element comes first on its way up; what follows is shorter. *)
Lemma chain_shorter (pg : Element) (p : Path) (k : nat) :
  k <= length p ->
  exists rest, chain pg p k = firstn k p :: rest
               /\ forall q, In q rest -> length q < k.
Proof.
  induction k as [|k IH]; intros Hk.
  - exists []. split; [|intros q []]. simpl.
    now destruct (attrs_at [] pg).
  - cbn [chain]. destruct (attrs_at (firstn (S k) p) pg) as [a|].
    2: { eexists. split; [reflexivity | intros q []]. }
    destruct (detached a).
    { eexists. split; [reflexivity | intros q []]. }
    destruct IH as (rest & Hrest & Hlen); [lia|].
    eexists. split; [reflexivity|]. rewrite Hrest.
    intros q [<- | Hq].
    + rewrite length_firstn. lia.
    + specialize (Hlen q Hq). lia.
Qed.

Lemma inclusive_ancestors_shorter (pg : Element) (p : Path) :
  exists rest, inclusive_ancestors pg p = p :: rest
               /\ forall q, In q rest -> length q < length p.
Proof.
  unfold inclusive_ancestors.
  destruct (chain_shorter pg p (length p) (le_n _)) as (rest & H & Hlen).
  exists rest. now rewrite firstn_all in H.
Qed.

Lemma path_eqb_eq (p q : Path) : path_eqb p q = true <-> p = q.
Proof. unfold path_eqb. apply bool_decide_eq_true. Qed.

Lemma path_eqb_refl (p : Path) : path_eqb p p = true.
Proof. now apply path_eqb_eq. Qed.

Lemma path_eqb_neq (p q : Path) : p <> q -> path_eqb p q = false.
Proof. intros H. unfold path_eqb. now apply bool_decide_eq_false. Qed.

(** One click on the sidebar button of a loaded page: the listeners stay,
    nothing is reported, and the only class list that changes is the
    sidebar's, where "open" is toggled. *)
Lemma click_button (page0 : Element) (btn sb : Path)
    (st : State Main.Callback) :
  elementById "btnSidebar" page0 = Some btn ->
  elementById "sidebar" page0 = Some sb ->
  registry st = wired page0 ->
  let st' := Main.click btn st in
  registry st' = wired page0
  /\ reported st' = reported st
  /\ forall q,
       classes_at q (page st')
       = if decide (sb = q)
         then option_map (toggle_token "open") (classes_at q (page st))
         else classes_at q (page st).
Proof.
  intros Hbtn Hsb Hr st'. subst st'.
  unfold Main.click, dispatchEvent, eventPath.
  destruct (inclusive_ancestors_shorter (page st) btn) as (rest & -> & Hlen).
  cbn [map app dispatchAlong].
  rewrite (listenersFor_click_wired page0 btn st Hr).
  unfold sidebarListeners. rewrite Hbtn, Hsb.
  cbn [List.filter l_target l_type target_eqb]. rewrite path_eqb_refl.
  cbn [andb String.eqb Ascii.eqb Bool.eqb map l_callback app invoke].
  rewrite onSidebarClick_spec. unfold report.
  set (st1 := set_page _ st).
  destruct (invoke_closers
              (map Main.OnAlertCloseClick
                 (List.filter (fun b => path_eqb b btn) (closers page0))) st1)
    as (Hr1 & He1 & Hc1); [apply only_closers_map|].
  set (st2 := invoke Main.run _ st1) in *.
  assert (Hr2 : registry st2 = wired page0) by (now rewrite Hr1).
  destruct (dispatch_closers
              (map Node rest
               ++ (if in_document btn (page st) then [DocumentNode] else []))
              st2) as (Hr3 & He3 & Hc3).
  { intros t Ht. apply in_app_or in Ht as [Ht | Ht].
    - apply in_map_iff in Ht as [q [<- Hq]].
      rewrite (listenersFor_click_wired page0 q st2 Hr2).
      unfold sidebarListeners. rewrite Hbtn, Hsb. cbn [List.filter l_target l_type target_eqb].
      rewrite path_eqb_neq.
      + apply only_closers_map.
      + intros ->. specialize (Hlen _ Hq). lia.
    - destruct (in_document btn (page st)); [|destruct Ht].
      destruct Ht as [<- | []].
      rewrite (listenersFor_click_document page0 st2 Hr2). constructor. }
  rewrite Hr3, He3, He1. repeat split; try assumption.
  intros q. rewrite Hc3, Hc1. apply classes_at_toggle.
Qed.

Lemma elementById_exists (name : string) (pg : Element) (p : Path) :
  elementById name pg = Some p ->
  exists a, attrs_at p pg = Some a /\ id a = name.
Proof.
  unfold elementById. intros H. apply find_some in H as [_ H].
  unfold has_id in H. destruct (attrs_at p pg) as [a|]; [|discriminate].
  exists a. split; [reflexivity | now apply String.eqb_eq].
Qed.

Lemma matches_open_toggled (sb : Path) (pg pg' : Element) :
  is_Some (classes_at sb pg) ->
  classes_at sb pg' = option_map (toggle_token "open") (classes_at sb pg) ->
  matches (Class "open") sb pg' = negb (matches (Class "open") sb pg).
Proof.
  intros [l Hl] H. rewrite !matches_classes, H, Hl. simpl.
  apply contains_toggle_same.
Qed.

Lemma clicks_button_parity (page0 : Element) (btn sb : Path) (n : nat) :
  elementById "btnSidebar" page0 = Some btn ->
  elementById "sidebar" page0 = Some sb ->
  forall st : State Main.Callback,
    registry st = wired page0 ->
    is_Some (classes_at sb (page st)) ->
    matches (Class "open") sb (page (Main.clicks n btn st))
    = if Nat.even n then matches (Class "open") sb (page st)
      else negb (matches (Class "open") sb (page st)).
Proof.
  intros Hbtn Hsb. induction n as [|n IH]; intros st Hr Hv; [reflexivity|].
  cbn [Main.clicks].
  destruct (click_button page0 btn sb st Hbtn Hsb Hr) as (Hr1 & _ & Hc1).
  specialize (Hc1 sb). rewrite decide_True in Hc1 by reflexivity.
  rewrite IH.
  - rewrite (matches_open_toggled sb (page st) _ Hv Hc1).
    rewrite Nat.even_succ, <- Nat.negb_even.
    destruct (Nat.even n); simpl; [reflexivity | apply negb_involutive].
  - exact Hr1.
  - rewrite Hc1. destruct Hv as [l ->]. now exists (toggle_token "open" l).
Qed.

(** C6: on a page that has the sidebar and its button, after [n] clicks on
    the button the sidebar carries the class "open" exactly as at the
    start when [n] is even, and the other way round when [n] is odd. *)
Theorem sidebar_toggle_parity (page : Element) (btn sb : Path) (n : nat) :
  elementById "btnSidebar" page = Some btn ->
  elementById "sidebar" page = Some sb ->
  matches (Class "open") sb (Dom.page (Main.clicks n btn (Main.load page)))
  = if Nat.even n then matches (Class "open") sb page
    else negb (matches (Class "open") sb page).
Proof.
  intros Hbtn Hsb.
  rewrite (clicks_button_parity page btn sb n Hbtn Hsb (Main.load page));
    rewrite load_spec; try reflexivity.
  destruct (elementById_exists _ _ _ Hsb) as (a & Ha & _).
  exists (classList a). unfold classes_at. simpl. now rewrite Ha.
Qed.

Lemma sidebar_toggle_parity_witness :
  matches (Class "open") [1]
    (Dom.page (Main.clicks 3 [0] (Main.load threeAlerts)))
  = negb (matches (Class "open") [1] threeAlerts).
Proof.
  exact (sidebar_toggle_parity threeAlerts [0] [1] 3 eq_refl eq_refl).
Defined.

(** *** Each element is listed once *)

Lemma in_walk_head {A : Type} (f : A -> list Path) (i : nat) (cs : list A)
    (p : Path) :
  In p (walk f i cs) -> exists j q, p = j :: q /\ i <= j.
Proof.
  revert i. induction cs as [|c cs IH]; intros i; simpl; [intros []|].
  rewrite in_app_iff, in_map_iff. intros [(q & <- & _) | H].
  - exists i, q. split; [reflexivity | lia].
  - destruct (IH _ H) as (j & q & -> & Hj). exists j, q. split; [reflexivity | lia].
Qed.

Lemma NoDup_map_cons (i : nat) (l : list Path) :
  List.NoDup l -> List.NoDup (map (cons i) l).
Proof.
  induction 1 as [|x l Hx _ IH]; simpl; constructor; [|exact IH].
  rewrite in_map_iff. intros (y & Heq & Hy). injection Heq as ->.
  contradiction.
Qed.

Lemma NoDup_walk {A : Type} (f : A -> list Path) (i : nat) (cs : list A) :
  (forall c, In c cs -> List.NoDup (f c)) -> List.NoDup (walk f i cs).
Proof.
  revert i. induction cs as [|c cs IH]; intros i H; simpl; [constructor|].
  apply List.NoDup_app.
  - apply NoDup_map_cons, H. now left.
  - apply IH. intros c' Hc'. apply H. now right.
  - intros p Hp Hp'. apply in_map_iff in Hp as (q & <- & _).
    destruct (in_walk_head _ _ _ _ Hp') as (j & q' & Heq & Hj).
    injection Heq as -> _. lia.
Qed.

Lemma NoDup_descendants (e : Element) : List.NoDup (descendants e).
Proof.
  induction e as [a cs IH] using Element_nested_ind. simpl.
  constructor.
  - intros H. destruct (in_walk_head _ _ _ _ H) as (j & q & Heq & _).
    discriminate.
  - apply NoDup_walk. intros c Hc.
    destruct (detached (elem_attrs c)); [constructor|].
    rewrite List.Forall_forall in IH. now apply IH.
Qed.

Lemma NoDup_elements (pg : Element) : List.NoDup (elements pg).
Proof.
  unfold elements. destruct (detached (elem_attrs pg)); [constructor|].
  apply NoDup_descendants.
Qed.

Lemma NoDup_closers (pg : Element) : List.NoDup (closers pg).
Proof. apply List.NoDup_filter, NoDup_elements. Qed.

Lemma filter_path_absent (q : Path) (l : list Path) :
  ~ In q l -> List.filter (fun b => path_eqb b q) l = [].
Proof.
  induction l as [|x l IH]; intros H; [reflexivity|]. simpl.
  rewrite path_eqb_neq.
  - apply IH. intros H'. apply H. now right.
  - intros ->. apply H. now left.
Qed.

Lemma filter_path_present (q : Path) (l : list Path) :
  List.NoDup l -> In q l -> List.filter (fun b => path_eqb b q) l = [q].
Proof.
  induction 1 as [|x l Hx Hl IH]; intros Hq; [destruct Hq|]. simpl.
  destruct Hq as [-> | Hq].
  - rewrite path_eqb_refl. f_equal. now apply filter_path_absent.
  - rewrite path_eqb_neq; [now apply IH|]. intros ->. contradiction.
Qed.

Lemma closers_match (pg : Element) (b : Path) :
  In b (closers pg) -> matches (Class "alert-close") b pg = true.
Proof. unfold closers, selectAll. rewrite filter_In. tauto. Qed.

Lemma sidebar_part_absent (pg : Element) (q : Path) :
  has_id "btnSidebar" q pg = false ->
  List.filter (fun l : Listener Main.Callback =>
                 target_eqb (l_target l) (Node q)
                 && (l_type l =? "click")%string)
    (sidebarListeners pg) = [].
Proof.
  intros H. unfold sidebarListeners.
  destruct (elementById "btnSidebar" pg) as [btn|] eqn:Hbtn; [|reflexivity].
  destruct (elementById "sidebar" pg) as [sb|]; [|reflexivity].
  cbn [List.filter l_target l_type target_eqb].
  rewrite path_eqb_neq; [reflexivity|]. intros ->.
  destruct (elementById_exists _ _ _ Hbtn) as (a & Ha & Hid).
  unfold has_id in H. rewrite Ha, Hid in H. now rewrite String.eqb_refl in H.
Qed.

Lemma dispatchAlong_idle (path : list Target) (type : string)
    (st : State Main.Callback) :
  (forall t, In t path -> listenersFor t type st = []) ->
  dispatchAlong Main.run path type st = st.
Proof.
  induction path as [|t path IH]; intros H; [reflexivity|].
  simpl. rewrite (H t) by now left. simpl. apply IH.
  intros u Hu. apply H. now right.
Qed.

Lemma closestMatch_found (sel : Selector) (el a : Path) (pg : Element) :
  closestMatch sel el pg = Some a ->
  In a (inclusive_ancestors pg el) /\ matches sel a pg = true.
Proof. unfold closestMatch. apply find_some. Qed.

Lemma matches_exists (sel : Selector) (p : Path) (pg : Element) :
  matches sel p pg = true -> exists a, attrs_at p pg = Some a.
Proof.
  unfold matches. destruct sel, (attrs_at p pg) as [a|]; [eauto | discriminate].
Qed.

(** *** What detaching an element does to the page *)

Lemma firstn_is_prefix (a q : Path) :
  a `prefix_of` q <-> exists k, k <= length q /\ firstn k q = a.
Proof.
  split.
  - intros [r ->]. exists (length a). rewrite length_app. split; [lia|].
    rewrite firstn_app, Nat.sub_diag, firstn_all. simpl. apply app_nil_r.
  - intros (k & _ & <-). exists (skipn k q). symmetry. apply firstn_skipn.
Qed.

Lemma in_document_without (a q : Path) (pg : Element) :
  is_Some (attrs_at a pg) ->
  in_document q (without a pg)
  = in_document q pg && negb (bool_decide (a `prefix_of` q)).
Proof.
  intros [x Hx]. unfold in_document.
  apply eq_true_iff_eq. rewrite andb_true_iff, negb_true_iff.
  rewrite bool_decide_eq_false, !forallb_forall, firstn_is_prefix.
  split.
  - intros H. split.
    + intros k Hk. specialize (H k Hk). unfold without in H.
      rewrite attrs_at_update in H.
      destruct (decide (a = firstn k q)) as [->|]; [|exact H].
      rewrite Hx in H. discriminate.
    + intros (k & Hk & Hka).
      assert (Hin : In k (seq 0 (S (length q)))) by (apply in_seq; lia).
      specialize (H k Hin). rewrite Hka in H.
      unfold without in H. rewrite attrs_at_update_same, Hx in H.
      discriminate H.
  - intros [H Hn] k Hk. unfold without. rewrite attrs_at_update.
    destruct (decide (a = firstn k q)) as [Ha|]; [|now apply H].
    exfalso. apply Hn. exists k. apply in_seq in Hk. split; [lia | now symmetry].
Qed.

(** ** Closing an alert *)

(** C7, as stated, fails: a click goes up through the ancestors of its
    target, so when a close control lies inside the close control of
    another alert, the click on the inner one runs both callbacks and the
    outer alert leaves the page too. *)
Lemma close_click_can_remove_another_alert :
  ~ (forall (page : Element) (b a q : Path),
        In b (closers page) ->
        closestMatch (Class "alert") b page = Some a ->
        ~ a `prefix_of` q ->
        in_document q page = true ->
        in_document q (Dom.page (Main.click b (Main.load page))) = true).
Proof.
  intros H.
  assert (Hn : ~ [0; 0; 0] `prefix_of` [0]) by (intros [r Hr]; discriminate).
  assert (Hb : In [0; 0; 0; 0] (closers nestedAlerts))
    by (vm_compute; tauto).
  specialize (H nestedAlerts [0; 0; 0; 0] [0; 0; 0] [0] Hb eq_refl Hn eq_refl).
  vm_compute in H. discriminate.
Qed.

(** C7, amended: when no other element with a click listener lies among a
    close control and its ancestors, a click on the control reports no
    error, keeps the listeners and
    - with an alert among the control and its ancestors, detaches the
      nearest one: the elements of the page are afterwards those that were
      there and are not inside that alert (the alert included), every
      element keeps its id and its classes, and no other element is
      marked detached;
    - without one, leaves the page as it is. *)
Theorem alert_close_click (page : Element) (b : Path) :
  In b (closers page) ->
  alone_on_path b page = true ->
  let st' := Main.click b (Main.load page) in
  reported st' = []
  /\ registry st' = registry (Main.load page)
  /\ match closestMatch (Class "alert") b page with
     | Some a =>
         Dom.page st' = without a page
         /\ (forall q,
               in_document q (Dom.page st')
               = in_document q page && negb (bool_decide (a `prefix_of` q)))
         /\ (forall q, q <> a -> attrs_at q (Dom.page st') = attrs_at q page)
         /\ (forall q,
               option_map id (attrs_at q (Dom.page st'))
               = option_map id (attrs_at q page)
               /\ classes_at q (Dom.page st') = classes_at q page)
     | None => Dom.page st' = page
     end.
Proof.
  intros Hb Halone st'.
  unfold alone_on_path in Halone. rewrite forallb_forall in Halone.
  assert (Hst : Main.click b (Main.load page)
                = match closestMatch (Class "alert") b page with
                  | Some a => set_page (without a page) (Main.load page)
                  | None => Main.load page
                  end).
  { unfold Main.click, dispatchEvent, eventPath.
    rewrite load_spec.
    set (st := {| Dom.page := page; registry := wired page; reported := [] |}).
    change (Dom.page st) with page.
    destruct (inclusive_ancestors_shorter page b) as (rest & Hrest & Hlen).
    rewrite Hrest in *.
    cbn [map app dispatchAlong].
    rewrite (listenersFor_click_wired page b st eq_refl).
    assert (Hid : has_id "btnSidebar" b page = false).
    { specialize (Halone b (or_introl eq_refl)).
      apply andb_true_iff in Halone as [Hn _]. now apply negb_true_iff. }
    rewrite (sidebar_part_absent page b Hid).
    rewrite (filter_path_present b _ (NoDup_closers page) Hb).
    cbn [map app invoke]. rewrite onAlertCloseClick_spec. unfold report.
    change (Dom.page st) with page.
    apply dispatchAlong_idle.
    assert (Hreg : registry
                     match closestMatch (Class "alert") b page with
                     | Some a => set_page (without a page) st
                     | None => st
                     end = wired page)
      by (now destruct (closestMatch (Class "alert") b page)).
    intros t Ht. apply in_app_or in Ht as [Ht | Ht].
    - apply in_map_iff in Ht as (q & <- & Hq).
      rewrite (listenersFor_click_wired page q _ Hreg).
      specialize (Halone q (or_intror Hq)).
      apply andb_true_iff in Halone as [Hn Hc].
      apply negb_true_iff in Hn. rewrite (sidebar_part_absent page q Hn).
      rewrite filter_path_absent; [reflexivity|].
      intros Hin. apply closers_match in Hin. rewrite Hin in Hc.
      rewrite orb_false_r in Hc. apply path_eqb_eq in Hc. subst q.
      specialize (Hlen b Hq). lia.
    - destruct (in_document b page); [|destruct Ht].
      destruct Ht as [<- | []].
      apply (listenersFor_click_document page _ Hreg). }
  subst st'. rewrite Hst. rewrite load_spec.
  destruct (closestMatch (Class "alert") b page) as [a|] eqn:Ha.
  - cbn [set_page Dom.page registry reported].
    split; [reflexivity|]. split; [reflexivity|].
    apply closestMatch_found in Ha as [_ Hm].
    apply matches_exists in Hm as [x Hx].
    split; [reflexivity|]. split; [|split].
    + intros q. apply in_document_without. now exists x.
    + intros q Hq. unfold without. now apply attrs_at_update_other.
    + intros q. split; [|apply classes_at_without].
      unfold without. rewrite attrs_at_update.
      destruct (decide (a = q)); [|reflexivity].
      now destruct (attrs_at q page).
  - now cbn.
Qed.

Lemma alert_close_click_witness :
  Dom.page (Main.click [3; 0] (Main.load threeAlerts))
  = without [3] threeAlerts
  /\ Dom.page (Main.click [0] (Main.load strayCloser)) = strayCloser.
Proof.
  split.
  - assert (Hb : In [3; 0] (closers threeAlerts)) by (vm_compute; tauto).
    exact (proj1 (proj2 (proj2
             (alert_close_click threeAlerts [3; 0] Hb eq_refl)))).
  - assert (Hb : In [0] (closers strayCloser)) by (vm_compute; tauto).
    exact (proj2 (proj2 (alert_close_click strayCloser [0] Hb eq_refl))).
Defined.

(** * Further properties of the script *)

(** ** What no click can do *)

Lemma evolves_refl (pg : Element) : evolves pg pg.
Proof. intros q. destruct (attrs_at q pg); [now repeat split | exact I]. Qed.

Lemma evolves_trans (pg1 pg2 pg3 : Element) :
  evolves pg1 pg2 -> evolves pg2 pg3 -> evolves pg1 pg3.
Proof.
  intros H12 H23 q. specialize (H12 q). specialize (H23 q).
  destruct (attrs_at q pg1), (attrs_at q pg2), (attrs_at q pg3);
    try contradiction; try exact I.
  destruct H12 as (Hi & Hd & Hc), H23 as (Hi' & Hd' & Hc').
  split; [congruence|]. split; [auto|].
  intros c Hne. now rewrite Hc', Hc.
Qed.

Lemma evolves_update (g : Attrs -> Attrs) (p : Path) (pg : Element) :
  (forall a, id (g a) = id a
             /\ (detached a = true -> detached (g a) = true)
             /\ forall c, c <> "open"%string ->
                  contains c (classList (g a)) = contains c (classList a)) ->
  evolves pg (update_at g p pg).
Proof.
  intros Hg q. rewrite attrs_at_update.
  destruct (decide (p = q)), (attrs_at q pg) as [a|]; simpl;
    try exact I; try apply Hg.
  now repeat split.
Qed.

Lemma evolves_without (a : Path) (pg : Element) : evolves pg (without a pg).
Proof. apply evolves_update. intros x. now repeat split. Qed.

Lemma evolves_toggle (sb : Path) (pg : Element) :
  evolves pg (update_at (set_classList (toggle_token "open")) sb pg).
Proof.
  apply evolves_update. intros x. repeat split; [auto|].
  intros c Hne. now apply contains_toggle_other.
Qed.

Lemma wired_click_callbacks (page0 : Element) (t : Target)
    (st : State Main.Callback) :
  registry st = wired page0 ->
  Forall click_callback (listenersFor t "click" st).
Proof.
  intros Hr. destruct t as [|q].
  - rewrite (listenersFor_click_document page0 st Hr). constructor.
  - rewrite (listenersFor_click_wired page0 q st Hr).
    apply List.Forall_app. split.
    + unfold sidebarListeners.
      destruct (elementById "btnSidebar" page0) as [btn|]; [|constructor].
      destruct (elementById "sidebar" page0) as [sb|]; [|constructor].
      cbn [List.filter]. destruct (_ && _); [|constructor].
      constructor; [|constructor]. left. now exists sb.
    + apply List.Forall_forall. intros cb Hcb.
      apply in_map_iff in Hcb as (b & <- & _). right. now exists b.
Qed.

Lemma run_click_callback (cb : Main.Callback) (st : State Main.Callback) :
  click_callback cb ->
  let st' := report (Main.run cb st) in
  registry st' = registry st
  /\ reported st' = reported st
  /\ evolves (page st) (page st').
Proof.
  intros [[sb ->] | [b ->]].
  - rewrite onSidebarClick_spec. cbn. repeat split. apply evolves_toggle.
  - rewrite onAlertCloseClick_spec. cbn.
    destruct (closestMatch (Class "alert") b (page st)); cbn;
      repeat split; [apply evolves_without | apply evolves_refl].
Qed.

Lemma invoke_click_callbacks (cbs : list Main.Callback)
    (st : State Main.Callback) :
  Forall click_callback cbs ->
  let st' := invoke Main.run cbs st in
  registry st' = registry st
  /\ reported st' = reported st
  /\ evolves (page st) (page st').
Proof.
  intros H. revert st. induction H as [|cb cbs Hcb _ IH]; intros st.
  - cbn. repeat split. apply evolves_refl.
  - cbn [invoke].
    destruct (run_click_callback cb st Hcb) as (Hr & He & Hv).
    destruct (IH (report (Main.run cb st))) as (Hr' & He' & Hv').
    rewrite Hr', He'. repeat split; try assumption.
    eapply evolves_trans; eassumption.
Qed.

Lemma dispatch_click (page0 : Element) (path : list Target)
    (st : State Main.Callback) :
  registry st = wired page0 ->
  let st' := dispatchAlong Main.run path "click" st in
  registry st' = wired page0
  /\ reported st' = reported st
  /\ evolves (page st) (page st').
Proof.
  revert st. induction path as [|t path IH]; intros st Hr.
  - cbn. repeat split; [assumption | apply evolves_refl].
  - cbn [dispatchAlong].
    destruct (invoke_click_callbacks (listenersFor t "click" st) st)
      as (Hr1 & He1 & Hv1); [now apply (wired_click_callbacks page0)|].
    destruct (IH (invoke Main.run (listenersFor t "click" st) st))
      as (Hr2 & He2 & Hv2); [congruence|].
    repeat split; [assumption | congruence |].
    eapply evolves_trans; eassumption.
Qed.

Lemma session_invariant (page0 : Element) (els : list Path)
    (st : State Main.Callback) :
  registry st = wired page0 ->
  let st' := session els st in
  registry st' = wired page0
  /\ reported st' = reported st
  /\ evolves (page st) (page st').
Proof.
  revert st. induction els as [|el els IH]; intros st Hr.
  - cbn. repeat split; [assumption | apply evolves_refl].
  - cbn [session].
    destruct (dispatch_click page0 (eventPath (Node el) st) st Hr)
      as (Hr1 & He1 & Hv1).
    destruct (IH (Main.click el st) Hr1) as (Hr2 & He2 & Hv2).
    repeat split; [assumption | |].
    + unfold Main.click, dispatchEvent in *. congruence.
    + eapply evolves_trans; eassumption.
Qed.



(** ** What loading a page sets up *)

Lemma in_walk {A : Type} (f : A -> list Path) (i0 : nat) (cs : list A)
    (i : nat) (q : Path) :
  In (i :: q) (walk f i0 cs)
  <-> exists c, i0 <= i /\ cs !! (i - i0) = Some c /\ In q (f c).
Proof.
  revert i0. induction cs as [|c cs IH]; intros i0; simpl.
  - split; [intros [] | intros (c & _ & H & _); discriminate].
  - rewrite in_app_iff, in_map_iff, IH. split.
    + intros [(q' & Heq & Hq') | (c' & Hle & Hc' & Hq)].
      * injection Heq as <- <-. exists c. rewrite Nat.sub_diag. now repeat split.
      * exists c'. split; [lia|]. split; [|exact Hq].
        replace (i - i0) with (S (i - S i0)) by lia. exact Hc'.
    + intros (c' & Hle & Hc' & Hq).
      destruct (decide (i = i0)) as [->|Hne].
      * rewrite Nat.sub_diag in Hc'. injection Hc' as <-. left. now exists q.
      * right. exists c'. split; [lia|]. split; [|exact Hq].
        replace (i - i0) with (S (i - S i0)) in Hc' by lia. exact Hc'.
Qed.

Lemma forallb_map_S (f : nat -> bool) (l : list nat) :
  forallb f (map S l) = forallb (fun k => f (S k)) l.
Proof. induction l as [|k l IH]; cbn; [reflexivity | now rewrite IH]. Qed.

Lemma in_document_nil (pg : Element) :
  in_document [] pg = negb (detached (elem_attrs pg)).
Proof. unfold in_document. cbn. apply andb_true_r. Qed.

Lemma in_document_cons (i : nat) (q : Path) (pg : Element) :
  in_document (i :: q) pg
  = negb (detached (elem_attrs pg))
    && match elem_children pg !! i with
       | Some c => in_document q c
       | None => false
       end.
Proof.
  unfold in_document. cbn [length]. rewrite <- cons_seq. cbn [forallb].
  f_equal. rewrite <- seq_shift, forallb_map_S.
  destruct (elem_children pg !! i) as [c|] eqn:Hc.
  - induction (seq 0 (S (length q))) as [|k l IHl]; [reflexivity|].
    cbn [forallb]. rewrite IHl. f_equal.
    unfold attrs_at. cbn. now rewrite Hc.
  - rewrite <- cons_seq. cbn [forallb]. unfold attrs_at. cbn. now rewrite Hc.
Qed.

Lemma in_document_attached (q : Path) (pg : Element) :
  in_document q pg = true -> detached (elem_attrs pg) = false.
Proof.
  destruct q; [rewrite in_document_nil | rewrite in_document_cons];
    intros H.
  - now apply negb_true_iff.
  - apply andb_true_iff in H as [H _]. now apply negb_true_iff.
Qed.

Lemma in_descendants (e : Element) :
  forall p, detached (elem_attrs e) = false ->
            (In p (descendants e) <-> in_document p e = true).
Proof.
  induction e as [a cs IH] using Element_nested_ind.
  rewrite List.Forall_forall in IH.
  intros [|i q] Ha; cbn [elem_attrs] in Ha.
  - rewrite in_document_nil. cbn. rewrite Ha. split; [reflexivity | now left].
  - rewrite in_document_cons. cbn [descendants elem_attrs elem_children].
    rewrite Ha. cbn [negb andb]. split.
    + intros [Hd | Hd]; [discriminate|].
      apply in_walk in Hd as (c & _ & Hc & Hq).
      rewrite Nat.sub_0_r in Hc. rewrite Hc.
      destruct (detached (elem_attrs c)) eqn:Hdc; [destruct Hq|].
      apply IH; [|exact Hdc | exact Hq].
      apply list_elem_of_In. eapply list_elem_of_lookup_2. exact Hc.
    + destruct (cs !! i) as [c|] eqn:Hc; [|discriminate]. intros Hq.
      right. apply in_walk. exists c. rewrite Nat.sub_0_r.
      split; [lia|]. split; [exact Hc|].
      pose proof (in_document_attached _ _ Hq) as Hdc. rewrite Hdc.
      apply IH; [|exact Hdc | exact Hq].
      apply list_elem_of_In. eapply list_elem_of_lookup_2. exact Hc.
Qed.

(** The elements listed for a page are those that are part of it. *)
Lemma in_elements (pg : Element) (p : Path) :
  In p (elements pg) <-> in_document p pg = true.
Proof.
  unfold elements. destruct (detached (elem_attrs pg)) eqn:Hd.
  - split; [intros [] |]. intros H.
    apply in_document_attached in H. congruence.
  - now apply in_descendants.
Qed.

(** X2: loading a page reports no error and leaves the page as it is.  It
    adds, after the script's own page-ready listener, the sidebar listener
    (when the page has both elements) and then one click listener per
    close control: the close controls are exactly the elements of the page
    with the class "alert-close", each is listed once, and its listener
    is bound to it and captures it. *)
Theorem load_wires_page (page : Element) :
  let st := Main.load page in
  reported st = []
  /\ Dom.page st = page
  /\ registry st
     = readyListener :: sidebarListeners page
       ++ map closeListener (closers page)
  /\ List.NoDup (closers page)
  /\ forall b, In b (closers page)
               <-> in_document b page = true
                   /\ matches (Class "alert-close") b page = true.
Proof.
  intros st. subst st. rewrite load_spec. cbn.
  repeat split; try reflexivity.
  - apply NoDup_closers.
  - apply in_elements. unfold closers, selectAll in H.
    now apply filter_In in H.
  - now apply closers_match.
  - intros [Hd Hm]. unfold closers, selectAll. apply filter_In.
    split; [now apply in_elements | exact Hm].
Qed.

Lemma filter_sidebar_closers (bs : list Path) :
  List.filter (fun l => is_sidebar_callback (l_callback l))
    (map closeListener bs) = [].
Proof. induction bs as [|b bs IH]; [reflexivity | exact IH]. Qed.

(** X3: among the listeners a loaded page ends up with, at most one runs
    the sidebar callback; it listens for clicks on an element of the page
    whose id is "btnSidebar" and toggles an element of the page whose id
    is "sidebar": the reference it captured is never null.  There is none
    when either lookup returned null. *)
Theorem sidebar_listener_bound (page : Element) :
  let found :=
    List.filter (fun l => is_sidebar_callback (l_callback l))
      (registry (Main.load page)) in
  (exists btn sb,
      found = [{| l_target := Node btn; l_type := "click";
                  l_callback := Main.OnSidebarClick (Some sb) |}]
      /\ in_document btn page = true /\ has_id "btnSidebar" btn page = true
      /\ in_document sb page = true /\ has_id "sidebar" sb page = true)
  \/ (found = []
      /\ (elementById "btnSidebar" page = None
          \/ elementById "sidebar" page = None)).
Proof.
  intros found. subst found. rewrite load_spec. cbn [registry].
  unfold wired. cbn [List.filter readyListener l_callback is_sidebar_callback].
  rewrite List.filter_app, filter_sidebar_closers, app_nil_r.
  unfold sidebarListeners.
  destruct (elementById "btnSidebar" page) as [btn|] eqn:Hbtn;
    [|right; split; [reflexivity | now left]].
  destruct (elementById "sidebar" page) as [sb|] eqn:Hsb;
    [|right; split; [reflexivity | now right]].
  left. exists btn, sb. split; [reflexivity|].
  unfold elementById in Hbtn, Hsb.
  apply find_some in Hbtn as [Hbtn1 Hbtn2].
  apply find_some in Hsb as [Hsb1 Hsb2].
  repeat split; try assumption; now apply in_elements.
Qed.

(** ** Relations every click preserves *)

Section Preserved.

Context (page0 : Element) (R : Element -> Element -> Prop).
Hypothesis R_refl : forall pg, R pg pg.
Hypothesis R_trans : forall pg1 pg2 pg3, R pg1 pg2 -> R pg2 pg3 -> R pg1 pg3.
Hypothesis R_close : forall a pg, R pg (without a pg).
Hypothesis R_toggle :
  forall sb pg,
    elementById "sidebar" page0 = Some sb ->
    R pg (update_at (set_classList (toggle_token "open")) sb pg).

Lemma wired_callbacks_from_page0 (t : Target) (st : State Main.Callback) :
  registry st = wired page0 ->
  Forall (from_page page0) (listenersFor t "click" st).
Proof.
  intros Hr. destruct t as [|q].
  - rewrite (listenersFor_click_document page0 st Hr). constructor.
  - rewrite (listenersFor_click_wired page0 q st Hr).
    apply List.Forall_app. split.
    + unfold sidebarListeners.
      destruct (elementById "btnSidebar" page0) as [btn|]; [|constructor].
      destruct (elementById "sidebar" page0) as [sb|] eqn:Hsb; [|constructor].
      cbn [List.filter]. destruct (_ && _); [|constructor].
      constructor; [|constructor]. left. now exists sb.
    + apply List.Forall_forall. intros cb Hcb.
      apply in_map_iff in Hcb as (b & <- & _). right. now exists b.
Qed.

Lemma invoke_relates (cbs : list Main.Callback) (st : State Main.Callback) :
  Forall (from_page page0) cbs ->
  R (page st) (page (invoke Main.run cbs st)).
Proof.
  intros H. revert st. induction H as [|cb cbs Hcb _ IH]; intros st.
  - apply R_refl.
  - cbn [invoke]. eapply R_trans; [|apply IH].
    destruct Hcb as [(sb & Hsb & ->) | (b & ->)].
    + rewrite onSidebarClick_spec. cbn. now apply R_toggle.
    + rewrite onAlertCloseClick_spec. cbn.
      destruct (closestMatch (Class "alert") b (page st)); cbn;
        [apply R_close | apply R_refl].
Qed.

Lemma dispatch_relates (path : list Target) (st : State Main.Callback) :
  registry st = wired page0 ->
  R (page st) (page (dispatchAlong Main.run path "click" st)).
Proof.
  revert st. induction path as [|t path IH]; intros st Hr.
  - apply R_refl.
  - cbn [dispatchAlong].
    eapply R_trans;
      [apply invoke_relates, wired_callbacks_from_page0, Hr|].
    apply IH.
    destruct (invoke_click_callbacks (listenersFor t "click" st) st)
      as (Hr1 & _); [now apply (wired_click_callbacks page0)|].
    congruence.
Qed.

Lemma session_relates (els : list Path) (st : State Main.Callback) :
  registry st = wired page0 ->
  R (page st) (page (session els st)).
Proof.
  revert st. induction els as [|el els IH]; intros st Hr.
  - apply R_refl.
  - cbn [session].
    eapply R_trans; [apply (dispatch_relates (eventPath (Node el) st) st Hr)|].
    apply IH.
    now destruct (dispatch_click page0 (eventPath (Node el) st) st Hr).
Qed.

End Preserved.

(** X4: whatever is clicked, the only class list that can change is that
    of the sidebar the listener was bound to (and there only the token
    "open", by X1); on a page without that sidebar no class list changes
    at all. *)
Theorem clicks_touch_no_other_class_list (page : Element) (els : list Path)
    (q : Path) :
  elementById "sidebar" page <> Some q ->
  classes_at q (Dom.page (session els (Main.load page))) = classes_at q page.
Proof.
  intros Hq.
  pose proof (session_relates page
                (fun pg pg' => classes_at q pg' = classes_at q pg)) as H.
  specialize (H (fun _ => eq_refl)).
  specialize (H (fun _ _ _ H1 H2 => eq_trans H2 H1)).
  specialize (H (fun a pg => classes_at_without a q pg)).
  rewrite H.
  - now rewrite load_spec.
  - intros sb pg Hsb. rewrite classes_at_toggle.
    rewrite decide_False; [reflexivity | congruence].
  - now rewrite load_spec.
Qed.

Lemma clicks_touch_no_other_class_list_witness :
  classes_at [3]
    (Dom.page (session [[0]; [3; 0]; [0]] (Main.load threeAlerts)))
  = classes_at [3] threeAlerts.
Proof.
  apply clicks_touch_no_other_class_list. discriminate.
Defined.

(** ** Clicks that reach no listener *)

(** X5: a click on an element that is not the sidebar button, not a close
    control, and inside neither, changes nothing at all. *)
Theorem click_elsewhere_is_inert (page : Element) (el : Path) :
  forallb (fun q => negb (has_id "btnSidebar" q page)
                    && negb (matches (Class "alert-close") q page))
    (inclusive_ancestors page el) = true ->
  Main.click el (Main.load page) = Main.load page.
Proof.
  intros H. rewrite forallb_forall in H. rewrite load_spec.
  set (st := {| Dom.page := page; registry := wired page; reported := [] |}).
  unfold Main.click, dispatchEvent. apply dispatchAlong_idle.
  intros t Ht. unfold eventPath in Ht. change (Dom.page st) with page in Ht.
  apply in_app_or in Ht as [Ht | Ht].
  - apply in_map_iff in Ht as (q & <- & Hq).
    rewrite (listenersFor_click_wired page q st eq_refl).
    specialize (H q Hq). apply andb_true_iff in H as [Hid Hc].
    apply negb_true_iff in Hid, Hc.
    rewrite (sidebar_part_absent page q Hid).
    rewrite filter_path_absent; [reflexivity|].
    intros Hin. apply closers_match in Hin. congruence.
  - destruct (in_document el page); [|destruct Ht].
    destruct Ht as [<- | []].
    apply (listenersFor_click_document page st eq_refl).
Qed.

Lemma click_elsewhere_is_inert_witness :
  Main.click [1] (Main.load threeAlerts) = Main.load threeAlerts.
Proof. apply click_elsewhere_is_inert. reflexivity. Defined.

(** X6: the script wires nothing by itself: until the page-ready event is
    dispatched, its only listener is the one on the document, and no click
    has any effect. *)
Theorem clicks_before_ready_are_inert (page : Element) (els : list Path) :
  let st := report (Main.script (Main.initial page)) in
  st = {| Dom.page := page; registry := [readyListener]; reported := [] |}
  /\ session els st = st.
Proof.
  intros st. split; [reflexivity|].
  assert (Hidle : forall el, Main.click el st = st).
  { intros el. unfold Main.click, dispatchEvent. apply dispatchAlong_idle.
    intros [|q] _; reflexivity. }
  induction els as [|el els IH]; [reflexivity|].
  cbn [session]. now rewrite Hidle.
Qed.

(** ** More on the utilities *)

Local Open Scope Z_scope.

Lemma unguarded_formatDate_result (E : Engine) (v : JsValue) :
  Part000.formatDate E v
  = Normal match Date_new E v with
           | None => "Invalid Date"%string
           | Some t =>
               let lt := LocalTime E t in
               (decimal (DateFromTime lt) ++ " "
                ++ monthLong (MonthFromTime lt) ++ " "
                ++ yearText (YearFromTime lt) ++ dateTimeGlue E
                ++ pad2 (HourFromTime lt) ++ ":" ++ pad2 (MinFromTime lt))%string
           end.
Proof.
  unfold Part000.formatDate. now destruct (Date_new E v).
Qed.

Lemma unguarded_formatDate_nonempty (E : Engine) (v : JsValue) :
  exists out, Part000.formatDate E v = Normal out /\ out <> ""%string.
Proof.
  rewrite unguarded_formatDate_result. eexists. split; [reflexivity|].
  destruct (Date_new E v) as [t|]; [|discriminate].
  intros H. apply (f_equal String.length) in H.
  cbv zeta in H. rewrite !length_append in H. simpl in H. lia.
Qed.

(** X7: neither copy of [formatDate] ever throws, whatever it is given and
    on whatever engine.  The guarded copy returns the empty string exactly
    for the falsy values (missing argument, null, false, empty string);
    the other copy never returns the empty string. *)
Theorem formatDate_never_throws (E : Engine) (v : JsValue) :
  (exists out, Main.formatDate E v = Normal out
               /\ (out = ""%string <-> ToBoolean v = false))
  /\ (exists out, Part000.formatDate E v = Normal out /\ out <> ""%string).
Proof.
  split; [|apply unguarded_formatDate_nonempty].
  destruct (ToBoolean v) eqn:Hv.
  - rewrite (formatDate_guard_passed E v Hv).
    destruct (unguarded_formatDate_nonempty E v) as (out & -> & Hout).
    exists out. split; [reflexivity|]. split; [contradiction | discriminate].
  - exists ""%string. unfold Main.formatDate, logical_not. rewrite Hv.
    now repeat split.
Qed.

(** X8: the two copies of [formatDate] return the same result exactly on
    the truthy values: the test of the guarded copy is a truthiness test,
    so null and false, which [Date] reads as the epoch, give the empty
    string there and a rendered date in the other copy. *)
Theorem formatDate_copies_agree_iff_truthy (E : Engine) (v : JsValue) :
  Main.formatDate E v = Part000.formatDate E v <-> ToBoolean v = true.
Proof.
  split; [|apply formatDate_guard_passed].
  intros Heq. destruct (ToBoolean v) eqn:Hv; [reflexivity|].
  destruct (unguarded_formatDate_nonempty E v) as (out & Hout & Hne).
  rewrite Hout in Heq. unfold Main.formatDate, logical_not in Heq.
  rewrite Hv in Heq. cbn in Heq. congruence.
Qed.

Lemma Day_of_minute (t : Z) : Day t = t / msPerMinute / 1440.
Proof.
  unfold Day, msPerDay, msPerMinute.
  rewrite Z.div_div by lia. reflexivity.
Qed.

Lemma Hour_of_minute (t : Z) : HourFromTime t = (t / msPerMinute / 60) mod 24.
Proof.
  unfold HourFromTime, msPerHour, msPerMinute.
  rewrite Z.div_div by lia. reflexivity.
Qed.

Lemma calendar_of_day (t1 t2 : Z) :
  Day t1 = Day t2 ->
  YearFromTime t1 = YearFromTime t2
  /\ MonthFromTime t1 = MonthFromTime t2
  /\ DateFromTime t1 = DateFromTime t2.
Proof.
  intros H.
  assert (Hy : YearFromTime t1 = YearFromTime t2)
    by (unfold YearFromTime; now rewrite H).
  assert (Hl : InLeapYear t1 = InLeapYear t2)
    by (unfold InLeapYear; now rewrite Hy).
  assert (Hd : DayWithinYear t1 = DayWithinYear t2)
    by (unfold DayWithinYear; now rewrite H, Hy).
  assert (Hm : MonthFromTime t1 = MonthFromTime t2)
    by (unfold MonthFromTime; now rewrite Hd, Hl).
  repeat split; try assumption.
  unfold DateFromTime. now rewrite Hd, Hm, Hl.
Qed.

(** X9: the rendering has the precision of the minute and truncates, it
    does not round: two date strings whose local times fall in the same
    minute are rendered alike. *)
Theorem formatDate_minute_precision (E : Engine) (s1 s2 : string)
    (t1 t2 : Z) :
  Date_parse E s1 = Some t1 ->
  Date_parse E s2 = Some t2 ->
  LocalTime E t1 / msPerMinute = LocalTime E t2 / msPerMinute ->
  Main.formatDate E (JStr s1) = Main.formatDate E (JStr s2).
Proof.
  intros H1 H2 Hmin.
  assert (Hne : forall s t, Date_parse E s = Some t ->
                            ToBoolean (JStr s) = true).
  { intros s t Hs. apply truthy_nonempty. intros ->.
    rewrite Date_parse_empty in Hs. discriminate. }
  rewrite (formatDate_valid E (JStr s1) t1 (Hne _ _ H1) H1).
  rewrite (formatDate_valid E (JStr s2) t2 (Hne _ _ H2) H2).
  cbv zeta.
  destruct (calendar_of_day (LocalTime E t1) (LocalTime E t2))
    as (Hy & Hm & Hd); [now rewrite !Day_of_minute, Hmin|].
  rewrite Hy, Hm, Hd, !Hour_of_minute, Hmin.
  unfold MinFromTime. now rewrite Hmin.
Qed.

Lemma formatDate_minute_precision_witness :
  Main.formatDate cetEngine (JStr "2024-03-05T14:30:00")
  = Main.formatDate cetEngine (JStr "2024-03-05T14:30:59.999").
Proof.
  exact (formatDate_minute_precision cetEngine
           "2024-03-05T14:30:00" "2024-03-05T14:30:59.999"
           1709645400000 1709645459999 eq_refl eq_refl eq_refl).
Defined.

(** X10: for every message that is missing, null, a boolean or a string,
    [confirmDelete] shows exactly one dialog, after those already shown,
    and returns the user's answer to it; the text of the dialog is never
    empty, since each falsy one of these messages is replaced by the
    default text. *)
Theorem confirmDelete_never_blank (message : JsValue) (w : Window) :
  exists m : string,
    m <> ""%string
    /\ Main.confirmDelete message w
       = (user w (shown w) m, {| shown := shown w ++ [m]; user := user w |}).
Proof.
  exists (ToString (logical_or message (JStr Main.defaultMessage))).
  split; [|reflexivity].
  destruct message as [| |[|]|[|c s]]; discriminate.
Qed.

(** ** Clicking a close control again *)

Local Open Scope nat_scope.

Lemma update_at_ext (g h : Attrs -> Attrs) (p : Path) (e : Element) :
  (forall a, g a = h a) -> update_at g p e = update_at h p e.
Proof.
  intros Hgh. revert e. induction p as [|i p IH]; intros [a cs]; cbn.
  - now rewrite Hgh.
  - f_equal. apply list_eq. intros j. rewrite !list_lookup_alter.
    destruct (decide (i = j)); [|reflexivity].
    destruct (cs !! i); [|reflexivity]. cbn. now rewrite IH.
Qed.

Lemma without_twice (a : Path) (pg : Element) :
  without a (without a pg) = without a pg.
Proof.
  unfold without. rewrite update_at_compose. apply update_at_ext.
  now intros [].
Qed.

Lemma matches_without (sel : Selector) (a q : Path) (pg : Element) :
  matches sel q (without a pg) = matches sel q pg.
Proof.
  destruct sel as [c]. now rewrite !matches_classes, classes_at_without.
Qed.

(** Detaching an element can only shorten the way up from another one. *)
Lemma chain_without_incl (a p : Path) (pg : Element) (k : nat) (q : Path) :
  In q (chain (without a pg) p k) -> In q (chain pg p k).
Proof.
  induction k as [|k IH]; cbn [chain].
  - destruct (attrs_at (firstn 0 p) (without a pg)),
             (attrs_at (firstn 0 p) pg); cbn; tauto.
  - intros [<- | H]; [now left|]. right.
    unfold without in H. rewrite attrs_at_update in H.
    destruct (decide (a = firstn (S k) p)) as [->|].
    + destruct (attrs_at (firstn (S k) p) pg); cbn in H; destruct H.
    + destruct (attrs_at (firstn (S k) p) pg) as [x|]; [|destruct H].
      destruct (detached x); [destruct H | now apply IH].
Qed.

(** The nearest match is still found once it has been detached. *)
Lemma chain_without_find (sel : Selector) (a p : Path) (pg : Element)
    (k : nat) :
  find (fun q => matches sel q pg) (chain pg p k) = Some a ->
  find (fun q => matches sel q (without a pg)) (chain (without a pg) p k)
  = Some a.
Proof.
  intros Hfind. pose proof (find_some _ _ Hfind) as [_ Hma].
  revert Hfind. induction k as [|k IH]; cbn [chain find];
    rewrite matches_without.
  - destruct (matches sel (firstn 0 p) pg); [tauto|].
    now destruct (attrs_at (firstn 0 p) pg).
  - destruct (matches sel (firstn (S k) p) pg) eqn:Hm; [tauto|].
    intros Hfind.
    assert (Hne : a <> firstn (S k) p) by (intros ->; congruence).
    unfold without at 2. rewrite attrs_at_update_other by exact Hne.
    destruct (attrs_at (firstn (S k) p) pg) as [x|]; [|discriminate].
    destruct (detached x); [discriminate | now apply IH].
Qed.

(** A click on a close control of a page loaded as [pg0], in a later state
    of that page, when the click meets no other listener on its way. *)
Lemma close_click_on (pg0 : Element) (b : Path) (st : State Main.Callback) :
  registry st = wired pg0 ->
  In b (closers pg0) ->
  (forall q, In q (inclusive_ancestors (page st) b) ->
             has_id "btnSidebar" q pg0 = false
             /\ (q = b \/ matches (Class "alert-close") q pg0 = false)) ->
  Main.click b st
  = match closestMatch (Class "alert") b (page st) with
    | Some a => set_page (without a (page st)) st
    | None => st
    end.
Proof.
  intros Hr Hb Halone.
  unfold Main.click, dispatchEvent, eventPath.
  destruct (inclusive_ancestors_shorter (page st) b) as (rest & Hrest & Hlen).
  rewrite Hrest in *.
  cbn [map app dispatchAlong].
  rewrite (listenersFor_click_wired pg0 b st Hr).
  rewrite (sidebar_part_absent pg0 b (proj1 (Halone b (or_introl eq_refl)))).
  rewrite (filter_path_present b _ (NoDup_closers pg0) Hb).
  cbn [map app invoke]. rewrite onAlertCloseClick_spec. unfold report.
  apply dispatchAlong_idle.
  assert (Hreg : registry
                   match closestMatch (Class "alert") b (page st) with
                   | Some a => set_page (without a (page st)) st
                   | None => st
                   end = wired pg0)
    by (now destruct (closestMatch (Class "alert") b (page st))).
  intros t Ht. apply in_app_or in Ht as [Ht | Ht].
  - apply in_map_iff in Ht as (q & <- & Hq).
    rewrite (listenersFor_click_wired pg0 q _ Hreg).
    destruct (Halone q (or_intror Hq)) as [Hn Hc].
    rewrite (sidebar_part_absent pg0 q Hn).
    rewrite filter_path_absent; [reflexivity|].
    intros Hin. apply closers_match in Hin.
    destruct Hc as [-> | Hc]; [|congruence].
    specialize (Hlen b Hq). lia.
  - destruct (in_document b (page st)); [|destruct Ht].
    destruct Ht as [<- | []].
    apply (listenersFor_click_document pg0 _ Hreg).
Qed.

(** X11: under the proviso of C7, a second click on the same close control
    (a double click, a scripted click on the control once it has left the
    page with its alert) changes nothing more. *)
Theorem close_click_twice (page : Element) (b : Path) :
  In b (closers page) ->
  alone_on_path b page = true ->
  Main.click b (Main.click b (Main.load page)) = Main.click b (Main.load page).
Proof.
  intros Hb Halone.
  unfold alone_on_path in Halone. rewrite forallb_forall in Halone.
  assert (Hq : forall q, In q (inclusive_ancestors page b) ->
                 has_id "btnSidebar" q page = false
                 /\ (q = b \/ matches (Class "alert-close") q page = false)).
  { intros q Hin. specialize (Halone q Hin).
    apply andb_true_iff in Halone as [Hn Hc].
    split; [now apply negb_true_iff|].
    apply orb_true_iff in Hc as [Hc | Hc];
      [left; now apply path_eqb_eq | right; now apply negb_true_iff]. }
  rewrite load_spec.
  set (st := {| Dom.page := page; registry := wired page; reported := [] |}).
  rewrite (close_click_on page b st eq_refl Hb Hq).
  change (Dom.page st) with page.
  destruct (closestMatch (Class "alert") b page) as [a|] eqn:Ha.
  - rewrite (close_click_on page b (set_page (without a page) st) eq_refl Hb).
    + cbn [set_page Dom.page]. unfold closestMatch, inclusive_ancestors.
      rewrite (chain_without_find (Class "alert") a b page (length b) Ha).
      cbn [set_page Dom.page registry reported]. now rewrite without_twice.
    + intros q Hin. apply Hq. cbn [set_page Dom.page] in Hin.
      now apply chain_without_incl in Hin.
  - rewrite (close_click_on page b st eq_refl Hb Hq).
    change (Dom.page st) with page. now rewrite Ha.
Qed.

Lemma close_click_twice_witness :
  Main.click [3; 0] (Main.click [3; 0] (Main.load threeAlerts))
  = Main.click [3; 0] (Main.load threeAlerts).
Proof.
  assert (Hb : In [3; 0] (closers threeAlerts)) by (vm_compute; tauto).
  exact (close_click_twice threeAlerts [3; 0] Hb eq_refl).
Defined.

(** ** More on the sidebar button *)

(** X12: when neither the sidebar button nor any of its ancestors is a
    close control, a click on the button does one thing: it toggles the
    token "open" in the class list of the sidebar (removed when present,
    appended when absent).  Nothing else in the page, no listener and no
    error report changes. *)
Theorem sidebar_click_exact (page : Element) (btn sb : Path) :
  elementById "btnSidebar" page = Some btn ->
  elementById "sidebar" page = Some sb ->
  forallb (fun q => negb (matches (Class "alert-close") q page))
    (inclusive_ancestors page btn) = true ->
  Main.click btn (Main.load page)
  = set_page (update_at (set_classList (toggle_token "open")) sb page)
      (Main.load page).
Proof.
  intros Hbtn Hsb Hnc. rewrite forallb_forall in Hnc.
  assert (Hno : forall q, In q (inclusive_ancestors page btn) ->
                  List.filter (fun b => path_eqb b q) (closers page) = []).
  { intros q Hq. apply filter_path_absent. intros Hin.
    apply closers_match in Hin. specialize (Hnc q Hq).
    rewrite Hin in Hnc. discriminate. }
  rewrite load_spec.
  set (st := {| Dom.page := page; registry := wired page; reported := [] |}).
  unfold Main.click, dispatchEvent, eventPath.
  change (Dom.page st) with page.
  destruct (inclusive_ancestors_shorter page btn) as (rest & Hrest & Hlen).
  rewrite Hrest in *.
  cbn [map app dispatchAlong].
  rewrite (listenersFor_click_wired page btn st eq_refl).
  rewrite (Hno btn (or_introl eq_refl)).
  unfold sidebarListeners at 1. rewrite Hbtn, Hsb.
  cbn [List.filter l_target l_type target_eqb]. rewrite path_eqb_refl.
  cbn [andb String.eqb Ascii.eqb Bool.eqb map l_callback app invoke].
  rewrite onSidebarClick_spec. unfold report.
  change (Dom.page st) with page.
  set (st1 := set_page _ st).
  apply dispatchAlong_idle.
  intros t Ht. apply in_app_or in Ht as [Ht | Ht].
  - apply in_map_iff in Ht as (q & <- & Hq).
    rewrite (listenersFor_click_wired page q st1 eq_refl).
    rewrite (Hno q (or_intror Hq)).
    unfold sidebarListeners. rewrite Hbtn, Hsb.
    cbn [List.filter l_target l_type target_eqb].
    rewrite path_eqb_neq; [reflexivity|].
    intros ->. specialize (Hlen _ Hq). lia.
  - destruct (in_document btn page); [|destruct Ht].
    destruct Ht as [<- | []].
    apply (listenersFor_click_document page st1 eq_refl).
Qed.

Lemma sidebar_click_exact_witness :
  Main.click [0] (Main.load threeAlerts)
  = set_page (update_at (set_classList (toggle_token "open")) [1] threeAlerts)
      (Main.load threeAlerts).
Proof.
  exact (sidebar_click_exact threeAlerts [0] [1] eq_refl eq_refl eq_refl).
Defined.

Lemma clicks_as_session (n : nat) (el : Path) (st : State Main.Callback) :
  Main.clicks n el st = session (repeat el n) st.
Proof.
  revert st. induction n as [|n IH]; intros st; [reflexivity|].
  cbn [Main.clicks repeat session]. apply IH.
Qed.

(** X13: after an even number of clicks on the sidebar button, every
    element of the tree matches the same class selectors as when the page
    was loaded (the class attribute of the sidebar may list its tokens in
    another order: "open" is appended when it comes back). *)
Theorem even_clicks_restore_classes (page : Element) (btn sb : Path)
    (n : nat) (c : string) (q : Path) :
  elementById "btnSidebar" page = Some btn ->
  elementById "sidebar" page = Some sb ->
  matches (Class c) q (Dom.page (Main.clicks (2 * n) btn (Main.load page)))
  = matches (Class c) q page.
Proof.
  intros Hbtn Hsb.
  destruct (decide (q = sb)) as [->|Hq].
  - destruct (String.eqb_spec c "open") as [->|Hc].
    + rewrite (clicks_button_parity page btn sb (2 * n) Hbtn Hsb
                 (Main.load page)).
      * rewrite load_spec. cbn [Dom.page].
        replace (Nat.even (2 * n)) with true; [reflexivity|].
        symmetry. apply Nat.even_spec. now exists n.
      * now rewrite load_spec.
      * rewrite load_spec. cbn [Dom.page].
        destruct (elementById_exists _ _ _ Hsb) as (a & Ha & _).
        exists (classList a). unfold classes_at. now rewrite Ha.
    + rewrite clicks_as_session.
      destruct (session_invariant page (repeat btn (2 * n)) (Main.load page))
        as (_ & _ & Hv); [now rewrite load_spec|].
      rewrite load_spec in Hv at 1. cbn [Dom.page] in Hv. specialize (Hv sb).
      unfold matches.
      destruct (attrs_at sb page) as [a|],
               (attrs_at sb (Dom.page (session _ _))) as [a'|];
        try contradiction; [|reflexivity].
      now apply Hv.
  - rewrite clicks_as_session, !matches_classes.
    pose proof (session_relates page
                  (fun pg pg' => classes_at q pg' = classes_at q pg)) as H.
    specialize (H (fun _ => eq_refl)).
    specialize (H (fun _ _ _ H1 H2 => eq_trans H2 H1)).
    specialize (H (fun a pg => classes_at_without a q pg)).
    rewrite H.
    + now rewrite load_spec.
    + intros sb' pg Hsb'. rewrite classes_at_toggle.
      rewrite decide_False; [reflexivity | congruence].
    + now rewrite load_spec.
Qed.

Lemma even_clicks_restore_classes_witness :
  matches (Class "open") [1]
    (Dom.page (Main.clicks (2 * 2) [0] (Main.load threeAlerts)))
  = matches (Class "open") [1] threeAlerts.
Proof.
  exact (even_clicks_restore_classes threeAlerts [0] [1] 2 "open" [1]
           eq_refl eq_refl).
Defined.
